(** * pySIP: the TwTi_RoRiAwAicv RC model and the frequentist regressor

    A shallow embedding of

    - [bopt/statespace/rc/twti_roriawaicv.py]: the second-order RC model,
      its constant entries, its state-space matrices and their analytic
      derivatives with respect to the parameters;
    - [pysip/regressors/frequentist.py]: [FreqRegressor.fit],
      [eval_residuals] and [predict].

    Python floats are kept abstract behind the class [Scalar]: the model is
    written once and read at IEEE binary64 ([float], what the interpreter
    runs) and at the real numbers (what a derivative is taken of). *)

From Stdlib Require Import Reals Lra Floats.
From stdpp Require Import base decidable option list gmap strings.

Set Default Proof Using "Type".

(** ** Scalars *)

Class Scalar (T : Type) := {
  s_zero : T;
  s_one : T;
  s_add : T -> T -> T;
  s_mul : T -> T -> T;
  s_div : T -> T -> T;
  s_neg : T -> T;
  s_sqrt : T -> T;
  s_abs : T -> T
}.

Declare Scope scalar_scope.
Delimit Scope scalar_scope with S.
Notation "x + y" := (s_add x y) : scalar_scope.
Notation "x * y" := (s_mul x y) : scalar_scope.
Notation "x / y" := (s_div x y) : scalar_scope.
Notation "- x" := (s_neg x) : scalar_scope.
Notation "x - y" := (s_add x (s_neg y)) : scalar_scope.

(** [x ** 2] on a float. *)
Definition s_sq {T} `{Scalar T} (x : T) : T := (x * x)%S.

#[export] Instance R_scalar : Scalar R := {|
  s_zero := 0%R; s_one := 1%R;
  s_add := Rplus; s_mul := Rmult; s_div := Rdiv; s_neg := Ropp;
  s_sqrt := R_sqrt.sqrt; s_abs := Rabs
|}.

#[export] Instance float_scalar : Scalar float := {|
  s_zero := 0%float; s_one := 1%float;
  s_add := PrimFloat.add; s_mul := PrimFloat.mul; s_div := PrimFloat.div;
  s_neg := PrimFloat.opp; s_sqrt := PrimFloat.sqrt; s_abs := PrimFloat.abs
|}.

(** ** Exceptions and the two monads

    [outcome] is the result of an expression that may raise. [M S] is a
    method of an object whose state has type [S]: the state that a raising
    call leaves behind is kept, as a Python object keeps what was written
    to it before the exception. *)

Inductive exn :=
  | KeyError
  | IndexError
  | ValueError
  | NotImplementedError
  | NumericalInstabilityError.

#[export] Instance exn_eq_dec : EqDecision exn.
Proof. solve_decision. Defined.

Inductive outcome (A : Type) :=
  | Ok (a : A)
  | Raise (e : exn).
Arguments Ok {A} a.
Arguments Raise {A} e.

#[export] Instance outcome_ret : MRet outcome := fun _ a => Ok a.
#[export] Instance outcome_bind : MBind outcome := fun _ _ f m =>
  match m with Ok a => f a | Raise e => Raise e end.
#[export] Instance outcome_fmap : FMap outcome := fun _ _ f m =>
  match m with Ok a => Ok (f a) | Raise e => Raise e end.

Definition of_option {A} (e : exn) (o : option A) : outcome A :=
  match o with Some a => Ok a | None => Raise e end.

Definition M (S A : Type) : Type := S -> outcome A * S.

#[export] Instance M_ret {S} : MRet (M S) := fun _ a s => (Ok a, s).
#[export] Instance M_bind {S} : MBind (M S) := fun _ _ f m s =>
  match m s with
  | (Ok a, s') => f a s'
  | (Raise e, s') => (Raise e, s')
  end.

Definition raise {S A} (e : exn) : M S A := fun s => (Raise e, s).
Definition lift {S A} (o : outcome A) : M S A := fun s => (o, s).
Definition gets {S A} (f : S -> A) : M S A := fun s => (Ok (f s), s).
Definition modify {S} (f : S -> S) : M S unit := fun s => (Ok tt, f s).

(** The state a method leaves, raised or not. *)
Definition exec {S A} (m : M S A) (s : S) : S := (m s).2.

(** ** NumPy arrays

    A two-dimensional array is the list of its rows; a stack of matrices (a
    three-dimensional array) carries the shape of its items, which an empty
    stack still has. *)

Abbreviation matrix T := (list (list T)).

Section Arrays.
Context {T : Type} `{Scalar T}.

Definition nrows (m : matrix T) : nat := length m.
Definition ncols (m : matrix T) : nat :=
  match m with
  | [] => 0
  | row :: _ => length row
  end.

Definition has_shape (r c : nat) (m : matrix T) : bool :=
  bool_decide (length m = r) && forallb (fun row => bool_decide (length row = c)) m.

(** [np.zeros((r, c))] *)
Definition zeros (r c : nat) : matrix T := replicate r (replicate c s_zero).

(** [m[i, j]] *)
Definition getitem (i j : nat) (m : matrix T) : outcome T :=
  of_option IndexError (m !! i ≫= fun row => row !! j).

(** Broadcasting a sequence along one axis of length [len]: lengths agree,
    or the sequence has one element, which is repeated. *)
Definition broadcast_to {X} (len : nat) (vals : list X) : outcome (list X) :=
  if decide (length vals = len) then Ok vals
  else match vals with
       | [v] => Ok (replicate len v)
       | _ => Raise ValueError
       end.

(** [m[i, j] = v] *)
Definition setitem (i j : nat) (v : T) (m : matrix T) : outcome (matrix T) :=
  match m !! i with
  | None => Raise IndexError
  | Some row =>
      if decide (j < length row) then Ok (<[i := <[j := v]> row]> m)
      else Raise IndexError
  end.

(** [m[i, lo:hi] = vals], [hi = None] for an open slice [lo:]. *)
Definition setslice (i lo : nat) (hi : option nat) (vals : list T) (m : matrix T)
  : outcome (matrix T) :=
  match m !! i with
  | None => Raise IndexError
  | Some row =>
      let start := lo `min` length row in
      let stop := default (length row) ((fun h => h `min` length row) <$> hi) in
      vs ← broadcast_to (stop - start) vals;
      Ok (<[i := take start row ++ vs ++ drop (start + (stop - start)) row]> m)
  end.

(** [m[:] = vals] *)
Definition setall (vals : matrix T) (m : matrix T) : outcome (matrix T) :=
  rows ← broadcast_to (length m) vals;
  mapM (fun rv : list T * list T => broadcast_to (length rv.1) rv.2) (zip m rows).

Definition symmetric (m : matrix T) : Prop :=
  forall i j, (m !! i ≫= fun row => row !! j) = (m !! j ≫= fun row => row !! i).

(** [m.T] *)
Fixpoint transpose_aux (c : nat) (m : matrix T) : matrix T :=
  match m with
  | [] => replicate c []
  | row :: m' => zip_with cons row (transpose_aux c m')
  end.
Definition transpose (m : matrix T) : matrix T := transpose_aux (ncols m) m.

Definition dot (u v : list T) : T :=
  foldl (fun acc ab => (acc + ab.1 * ab.2)%S) s_zero (zip u v).

(** [a @ b] for two matrices. *)
Definition matmul (a b : matrix T) : outcome (matrix T) :=
  if decide (ncols a = nrows b)
  then Ok (map (fun row => map (dot row) (transpose b)) a)
  else Raise ValueError.
End Arrays.

(** ** Stacks of matrices and squeezed results *)

Section Stacks.
Context {T : Type} `{Scalar T}.

(** A three-dimensional array of shape (len, rows, cols): the states or
    covariances of a whole series. *)
Record stack := Stack {
  st_rows : nat;
  st_cols : nat;
  st_items : list (matrix T)
}.

(** An array as [np.squeeze] returns it: a shape and the entries in row-major
    order. *)
Record ndarray := NdArray {
  nd_shape : list nat;
  nd_data : list T
}.

(** [np.squeeze(a)]: axes of length one are dropped, entries stay. *)
Definition squeeze (a : ndarray) : ndarray :=
  {| nd_shape := filter (fun n => n <> 1) (nd_shape a); nd_data := nd_data a |}.

Definition stack_array (s : stack) : ndarray :=
  {| nd_shape := [length (st_items s); st_rows s; st_cols s];
     nd_data := concat (concat (st_items s)) |}.

(** [m @ s]: the matrix times every item of the stack. *)
Definition matmul_left (m : matrix T) (s : stack) : outcome stack :=
  if decide (ncols m = st_rows s)
  then Ok {| st_rows := nrows m; st_cols := st_cols s;
             st_items := (fun it => map (fun row => map (dot row) (transpose it)) m)
                           <$> st_items s |}
  else Raise ValueError.

(** [s @ m]: every item of the stack times the matrix. *)
Definition matmul_right (s : stack) (m : matrix T) : outcome stack :=
  if decide (st_cols s = nrows m)
  then Ok {| st_rows := st_rows s; st_cols := ncols m;
             st_items := (fun it => map (fun row => map (dot row) (transpose m)) it)
                           <$> st_items s |}
  else Raise ValueError.

(** [np.sqrt(s)] *)
Definition stack_sqrt (s : stack) : stack :=
  {| st_rows := st_rows s; st_cols := st_cols s;
     st_items := map (map (map s_sqrt)) (st_items s) |}.

(** The common length of two axes under broadcasting. *)
Definition broadcast_dim (n m : nat) : outcome nat :=
  if decide (n = m) then Ok n
  else if decide (n = 1) then Ok m
  else if decide (m = 1) then Ok n
  else Raise ValueError.

(** Stretching an axis of length one to [len]; other axes are left. *)
Definition stretch {X} (len : nat) (l : list X) : list X :=
  match l with
  | [x] => replicate len x
  | _ => l
  end.

Definition stretch_matrix (r c : nat) (m : matrix T) : matrix T :=
  stretch r (stretch c <$> m).

(** [s + m] with NumPy broadcasting of the matrix against every item. *)
Definition stack_add (s : stack) (m : matrix T) : outcome stack :=
  r ← broadcast_dim (st_rows s) (nrows m);
  c ← broadcast_dim (st_cols s) (ncols m);
  Ok {| st_rows := r; st_cols := c;
        st_items := (fun it =>
                       zip_with (zip_with s_add)
                         (stretch_matrix r c it) (stretch_matrix r c m))
                      <$> st_items s |}.

(** [s[idx, :, :]] for an integer index array. *)
Definition take_items (idx : list nat) (s : stack) : outcome stack :=
  items ← mapM (fun i => of_option IndexError (st_items s !! i)) idx;
  Ok {| st_rows := st_rows s; st_cols := st_cols s; st_items := items |}.

(** [s[-k:, :, :]]: the last [k] items, and all of them when [k] is zero,
    since [-0] is [0]. *)
Definition last_items (k : nat) (s : stack) : stack :=
  {| st_rows := st_rows s; st_cols := st_cols s;
     st_items := if decide (k = 0) then st_items s
                 else drop (length (st_items s) - k) (st_items s) |}.

(** [np.diag(v)] for a vector: the square matrix with [v] on its diagonal. *)
Definition diag_matrix (v : list T) : matrix T :=
  imap (fun i x => <[i := x]> (replicate (length v) s_zero)) v.

(** [np.diag(m)] for a matrix: its main diagonal. *)
Definition diag_of (m : matrix T) : list T :=
  omap (fun o => o) (imap (fun i row => row !! i) m).

(** [u * v] on two vectors, with broadcasting. *)
Definition vec_mul (u v : list T) : outcome (list T) :=
  n ← broadcast_dim (length u) (length v);
  Ok (zip_with s_mul (stretch n u) (stretch n v)).

(** [np.vstack(rows)]: the rows must have one length. *)
Definition vstack (rows : list (list T)) : outcome (matrix T) :=
  match rows with
  | [] => Raise ValueError
  | r :: _ =>
      if forallb (fun r' => bool_decide (length r' = length r)) rows
      then Ok rows else Raise ValueError
  end.
End Stacks.
Arguments stack T : clear implicits.
Arguments ndarray T : clear implicits.

(** ** The state-space object

    The attributes of a model instance that the subclass reads and writes:
    the eight matrices, the eight derivative maps keyed by parameter name,
    and the two scale factors of the RC base class. *)

Inductive mat_id := mA | mB | mC | mD | mQ | mR | mx0 | mP0.

#[export] Instance mat_id_eq_dec : EqDecision mat_id.
Proof. solve_decision. Defined.

Definition mat_ids : list mat_id := [mA; mB; mC; mD; mQ; mR; mx0; mP0].

Module SS.
Section Fields.
Context {T : Type}.

Record t := mk {
  A : matrix T; B : matrix T; C : matrix T; D : matrix T;
  Q : matrix T; R : matrix T; x0 : matrix T; P0 : matrix T;
  dA : gmap string (matrix T); dB : gmap string (matrix T);
  dC : gmap string (matrix T); dD : gmap string (matrix T);
  dQ : gmap string (matrix T); dR : gmap string (matrix T);
  dx0 : gmap string (matrix T); dP0 : gmap string (matrix T);
  sX : T; sC : T
}.

Definition mat (id : mat_id) (s : t) : matrix T :=
  match id with
  | mA => A s | mB => B s | mC => C s | mD => D s
  | mQ => Q s | mR => R s | mx0 => x0 s | mP0 => P0 s
  end.

Definition jac (id : mat_id) (s : t) : gmap string (matrix T) :=
  match id with
  | mA => dA s | mB => dB s | mC => dC s | mD => dD s
  | mQ => dQ s | mR => dR s | mx0 => dx0 s | mP0 => dP0 s
  end.

Definition set_mat (id : mat_id) (m : matrix T) (s : t) : t :=
  let pick i := if decide (i = id) then m else mat i s in
  {| A := pick mA; B := pick mB; C := pick mC; D := pick mD;
     Q := pick mQ; R := pick mR; x0 := pick mx0; P0 := pick mP0;
     dA := dA s; dB := dB s; dC := dC s; dD := dD s;
     dQ := dQ s; dR := dR s; dx0 := dx0 s; dP0 := dP0 s;
     sX := sX s; sC := sC s |}.

Definition set_jac (id : mat_id) (d : gmap string (matrix T)) (s : t) : t :=
  let pick i := if decide (i = id) then d else jac i s in
  {| A := A s; B := B s; C := C s; D := D s;
     Q := Q s; R := R s; x0 := x0 s; P0 := P0 s;
     dA := pick mA; dB := pick mB; dC := pick mC; dD := pick mD;
     dQ := pick mQ; dR := pick mR; dx0 := pick mx0; dP0 := pick mP0;
     sX := sX s; sC := sC s |}.
End Fields.
Arguments t T : clear implicits.
End SS.

(** Assignments to the attributes of [self]. An assignment that raises
    leaves the object as it was before that statement. *)

Section Statements.
Context {T : Type} `{Scalar T}.

Definition assign_mat (id : mat_id) (f : matrix T -> outcome (matrix T))
  : M (SS.t T) unit := fun s =>
  match f (SS.mat id s) with
  | Ok m => (Ok tt, SS.set_mat id m s)
  | Raise e => (Raise e, s)
  end.

Definition assign_jac (id : mat_id) (k : string)
    (f : matrix T -> outcome (matrix T)) : M (SS.t T) unit := fun s =>
  match SS.jac id s !! k with
  | None => (Raise KeyError, s)
  | Some m =>
      match f m with
      | Ok m' => (Ok tt, SS.set_jac id (<[k := m']> (SS.jac id s)) s)
      | Raise e => (Raise e, s)
      end
  end.
End Statements.

(** ** TwTi_RoRiAwAicv: the second-order RC model *)

Module TwTi_RoRiAwAicv.

Definition states : list (string * string * string) := [
  ("TEMPERATURE", "xw", "wall temperature");
  ("TEMPERATURE", "xi", "indoor space temperature")
].

Definition params : list (string * string * string) := [
  ("THERMAL_RESISTANCE", "Ro", "between the outdoor and the wall node");
  ("THERMAL_RESISTANCE", "Ri", "between the wall node and the indoor");
  ("THERMAL_CAPACITY", "Cw", "Wall");
  ("THERMAL_CAPACITY", "Ci", "indoor air, indoor walls, furnitures, etc. ");
  ("SOLAR_APERTURE", "Aw", "of the wall (m2)");
  ("SOLAR_APERTURE", "Ai", "of the windows (m2)");
  ("COEFFICIENT", "cv", "scaling of the heating contribution of the ventilation");
  ("STATE_DEVIATION", "sigw_w", "");
  ("STATE_DEVIATION", "sigw_i", "");
  ("MEASURE_DEVIATION", "sigv", "");
  ("INITIAL_MEAN", "x0_w", "");
  ("INITIAL_MEAN", "x0_i", "");
  ("INITIAL_DEVIATION", "sigx0_w", "");
  ("INITIAL_DEVIATION", "sigx0_i", "")
].

Definition inputs : list (string * string * string) := [
  ("TEMPERATURE", "To", "outdoor air temperature");
  ("POWER", "Qgh", "global horizontal solar radiation");
  ("POWER", "Qh", "HVAC system heat");
  ("POWER", "Qv", "heat from the ventilation system")
].

Definition outputs : list (string * string * string) := [
  ("TEMPERATURE", "xi", "indoor air temperature")
].

Definition symbol (d : string * string * string) : string := d.1.2.
Definition names : list string := symbol <$> params.

Definition nx : nat := length states.
Definition nu : nat := length inputs.
Definition ny : nat := length outputs.

(** The declared shape of each matrix. *)
Definition shape (id : mat_id) : nat * nat :=
  match id with
  | mA => (nx, nx) | mB => (nx, nu) | mC => (ny, nx) | mD => (ny, nu)
  | mQ => (nx, nx) | mR => (ny, ny) | mx0 => (nx, 1) | mP0 => (nx, nx)
  end.

Section Model.
Context {T : Type} `{Scalar T}.
Local Open Scope scalar_scope.

Definition set_constant : M (SS.t T) unit :=
  (* self.C[0, 1] = 1.0 *)
  assign_mat mC (setitem 0 1 s_one).

Definition set_jacobian : M (SS.t T) unit :=
  (* self.dQ['sigw_w'][0, 0] = 1.0 *)
  assign_jac mQ "sigw_w" (setitem 0 0 s_one) ;;
  (* self.dQ['sigw_i'][1, 1] = 1.0 *)
  assign_jac mQ "sigw_i" (setitem 1 1 s_one) ;;
  (* self.dR['sigv'][0, 0] = 1.0 *)
  assign_jac mR "sigv" (setitem 0 0 s_one) ;;
  (* self.dx0['x0_w'][0, 0] = self.sX *)
  sX ← gets SS.sX;
  assign_jac mx0 "x0_w" (setitem 0 0 sX) ;;
  (* self.dx0['x0_i'][1, 0] = self.sX *)
  sX ← gets SS.sX;
  assign_jac mx0 "x0_i" (setitem 1 0 sX) ;;
  (* self.dP0['sigx0_w'][0, 0] = 1.0 *)
  assign_jac mP0 "sigx0_w" (setitem 0 0 s_one) ;;
  (* self.dP0['sigx0_i'][1, 1] = 1.0 *)
  assign_jac mP0 "sigx0_i" (setitem 1 1 s_one).

Definition update_state_space_model (theta : list T) : M (SS.t T) unit :=
  match theta with
  | Ro :: Ri :: Cw :: Ci :: Aw :: Ai :: cv :: sigw_w :: sigw_i :: sigv
       :: x0_w :: x0_i :: sigx0_w :: sigx0_i :: _ =>
      sC ← gets SS.sC;
      assign_mat mA (setall [
        [- (Ro + Ri) / (Cw * Ri * Ro * sC); s_one / (Cw * Ri * sC)];
        [s_one / (Ci * Ri * sC); - s_one / (Ci * Ri * sC)]
      ]) ;;
      sC ← gets SS.sC;
      assign_mat mB (setslice 0 0 (Some 2)
        [s_one / (Cw * Ro * sC); Aw / (Cw * sC)]) ;;
      sC ← gets SS.sC;
      assign_mat mB (setslice 1 1 None
        [Ai / (Ci * sC); s_one / (Ci * sC); cv / (Ci * sC)]) ;;
      assign_mat mQ (setitem 0 0 sigw_w) ;;
      assign_mat mQ (setitem 1 1 sigw_i) ;;
      assign_mat mR (setitem 0 0 sigv) ;;
      sX ← gets SS.sX;
      assign_mat mx0 (setitem 0 0 (x0_w * sX)) ;;
      sX ← gets SS.sX;
      assign_mat mx0 (setitem 1 0 (x0_i * sX)) ;;
      assign_mat mP0 (setitem 0 0 sigx0_w) ;;
      assign_mat mP0 (setitem 1 1 sigx0_i)
  | _ => raise ValueError
  end.

Definition update_jacobian (theta : list T) : M (SS.t T) unit :=
  match theta with
  | Ro :: Ri :: Cw :: Ci :: Aw :: Ai :: cv :: _ =>
      sC ← gets SS.sC;
      assign_jac mA "Ro" (setitem 0 0 (s_one / (Cw * s_sq Ro * sC))) ;;
      sC ← gets SS.sC;
      assign_jac mA "Ri" (setall [
        [s_one / (Cw * s_sq Ri * sC); - s_one / (Cw * s_sq Ri * sC)];
        [- s_one / (Ci * s_sq Ri * sC); s_one / (Ci * s_sq Ri * sC)]
      ]) ;;
      sC ← gets SS.sC;
      assign_jac mA "Cw" (setslice 0 0 None
        [(Ro + Ri) / (s_sq Cw * Ri * Ro * sC); - s_one / (s_sq Cw * Ri * sC)]) ;;
      sC ← gets SS.sC;
      assign_jac mA "Ci" (setslice 1 0 None
        [- s_one / (s_sq Ci * Ri * sC); s_one / (s_sq Ci * Ri * sC)]) ;;
      sC ← gets SS.sC;
      assign_jac mB "Ro" (setitem 0 0 (- s_one / (Cw * s_sq Ro * sC))) ;;
      sC ← gets SS.sC;
      assign_jac mB "Cw" (setslice 0 0 (Some 2)
        [- s_one / (s_sq Cw * Ro * sC); - Aw / (s_sq Cw * sC)]) ;;
      sC ← gets SS.sC;
      assign_jac mB "Ci" (setslice 1 1 None
        [- Ai / (s_sq Ci * sC); - s_one / (s_sq Ci * sC); - cv / (s_sq Ci * sC)]) ;;
      sC ← gets SS.sC;
      assign_jac mB "Aw" (setitem 0 1 (s_one / (Cw * sC))) ;;
      sC ← gets SS.sC;
      assign_jac mB "Ai" (setitem 1 1 (s_one / (Ci * sC))) ;;
      sC ← gets SS.sC;
      assign_jac mB "cv" (setitem 1 3 (s_one / (Ci * sC)))
  | _ => raise ValueError
  end.

(** Modelled from the spec: the constructor of the base classes
    ([RCModel], [StateSpace] in [statespace/base.py]), which is not among
    the sources. The data model gives every matrix its declared shape
    (A n x n, B n x m, C p x n, D p x m, Q n x n, R p x p, x0 n x 1,
    P0 n x n) and every derivative map one entry per parameter, shaped
    as its parent and zero where nothing is written; the entries are
    separate arrays. The scale factors [sX] and [sC] are attributes the
    base class sets; they are taken as given. *)
Definition allocate (sX sC : T) : SS.t T :=
  let z id := zeros (shape id).1 (shape id).2 in
  let dz id : gmap string (matrix T) := list_to_map ((fun k => (k, z id)) <$> names) in
  {| SS.A := z mA; SS.B := z mB; SS.C := z mC; SS.D := z mD;
     SS.Q := z mQ; SS.R := z mR; SS.x0 := z mx0; SS.P0 := z mP0;
     SS.dA := dz mA; SS.dB := dz mB; SS.dC := dz mC; SS.dD := dz mD;
     SS.dQ := dz mQ; SS.dR := dz mR; SS.dx0 := dz mx0; SS.dP0 := dz mP0;
     SS.sX := sX; SS.sC := sC |}.

(** Modelled from the spec: construction runs the one-time steps
    [set_constant] and [set_jacobian] on the allocated object. *)
Definition construct (sX sC : T) : SS.t T :=
  exec (set_constant ;; set_jacobian) (allocate sX sC).

(** One likelihood evaluation rebuilds the matrices and the derivatives
    from the current parameter vector. *)
Definition evaluate (theta : list T) : M (SS.t T) unit :=
  update_state_space_model theta ;; update_jacobian theta.

(** The states a model instance goes through: constructed, then any
    number of calls of the two update methods, each with the parameter
    vector of the moment. *)
Inductive reachable (sX sC : T) : SS.t T -> Prop :=
  | reach_construct : reachable sX sC (construct sX sC)
  | reach_model theta s :
      reachable sX sC s ->
      reachable sX sC (exec (update_state_space_model theta) s)
  | reach_jacobian theta s :
      reachable sX sC s ->
      reachable sX sC (exec (update_jacobian theta) s).

(** The per-evaluation methods, as the regressor calls them. *)
Inductive call :=
  | CallModel (theta : list T)
  | CallJacobian (theta : list T).

Definition run_call (c : call) : M (SS.t T) unit :=
  match c with
  | CallModel theta => update_state_space_model theta
  | CallJacobian theta => update_jacobian theta
  end.

Definition run_calls (cs : list call) (s : SS.t T) : SS.t T :=
  foldl (fun s c => exec (run_call c) s) s cs.

(** The state after construction and the last run of each update method,
    [None] for a method that has not run. *)
Definition after (sX sC : T) (o1 o2 : option (list T)) : SS.t T :=
  let s := construct sX sC in
  let s := from_option (fun th => exec (update_state_space_model th) s) s o1 in
  from_option (fun th => exec (update_jacobian th) s) s o2.

(** A parameter vector, if any, with at least [n] entries. *)
Definition long (n : nat) (o : option (list T)) : Prop :=
  from_option (fun th => n <= length th) True o.
End Model.
End TwTi_RoRiAwAicv.

(** ** The model over the real numbers *)

Section RealModel.
Import TwTi_RoRiAwAicv.
Local Open Scope R_scope.

(** Entry [i, j] of a matrix, as a total function for differentiation. *)
Definition entry (m : matrix R) (i j : nat) : R :=
  default 0 (m !! i ≫= fun row => row !! j).

(** The model after construction and one evaluation at [theta]. *)
Definition built (sX sC : R) (theta : list R) : SS.t R :=
  exec (evaluate theta) (construct sX sC).

(** A parameter vector the model accepts: all fourteen entries, the two
    resistances and the two capacities nonzero. *)
Definition valid (theta : list R) : Prop :=
  (14 <= length theta)%nat /\ Forall (fun x => x <> 0) (take 4 theta).

(** The matrix [id] does not depend on parameter [k]: changing that entry
    of any valid vector to any value that keeps it valid leaves the matrix
    [update_state_space_model] builds as it was. *)
Definition independent (sX sC : R) (id : mat_id) (k : nat) : Prop :=
  forall theta v,
    valid theta -> valid (<[k := v]> theta) ->
    SS.mat id (built sX sC (<[k := v]> theta)) = SS.mat id (built sX sC theta).
End RealModel.

(** ** FreqRegressor *)

Module FreqRegressor.
Section Regressor.
Context {T : Type} `{Scalar T}.

(** What the regressor is handed and hands on without looking inside:
    the data frame, column names, the new time instants, and the arrays
    that travel between its collaborators. *)
Context {DataFrame Names TNew Obj : Type}.

(** [tnew.shape[0]], and an object read as an integer index array. *)
Context (tnew_len : TNew -> nat) (as_index : Obj -> list nat).

(** The regressor object: everything behind [self]. Of it the methods here
    read [self.ss.ny], [self.ss.C] and [self.ss.R]. *)
Context {W : Type}.
Context (ss_ny : W -> nat) (ss_C ss_R : W -> matrix T).

(** The collaborators, which live in the base classes, the state-space
    model and the filter; each may change the object and may raise. A tuple
    result is the list of its components. *)
Context (_prepare_data :
           DataFrame -> option Names -> option Names -> option TNew -> M W (list Obj)).
Context (_estimate_states :
           Obj -> Obj -> Obj -> Obj -> option Obj -> option Obj -> bool ->
           M W (stack T * stack T)).
Context (_eval_log_likelihood : Obj -> Obj -> Obj -> Obj -> M W Obj).
Context (get_discrete_ssm : Obj -> M W (list Obj)).
Context (filtering : Obj -> Obj -> Obj -> Obj -> Obj -> M W (list (ndarray T))).

Definition eval_residuals (df : DataFrame) (outputs inputs : option Names)
    (x0 P0 : option Obj) : M W (ndarray T * ndarray T) :=
  (* dt, u, u1, y, *_ = self._prepare_data(df, inputs, outputs, None) *)
  prepared ← _prepare_data df inputs outputs None;
  match prepared with
  | dt :: u :: u1 :: y :: _ =>
      (* ssm, index = self.ss.get_discrete_ssm(dt) *)
      discrete ← get_discrete_ssm dt;
      match discrete with
      | [ssm; index] =>
          (* res, res_std = self.filter.filtering(ssm, index, u, u1, y)[2:] *)
          filtered ← filtering ssm index u u1 y;
          match drop 2 filtered with
          | [res; res_std] => mret (squeeze res, squeeze res_std)
          | _ => raise ValueError
          end
      | _ => raise ValueError
      end
  | _ => raise ValueError
  end.

Definition estimate_states (df : DataFrame) (outputs inputs : option Names)
    (x0 P0 : option Obj) (smooth : bool) : M W (stack T * stack T) :=
  prepared ← _prepare_data df inputs outputs None;
  match prepared with
  | dt :: u :: u1 :: y :: _ => _estimate_states dt u u1 y x0 P0 smooth
  | _ => raise ValueError
  end.

Definition eval_log_likelihood (df : DataFrame) (outputs inputs : option Names)
    : M W Obj :=
  (* dt, u, u1, y = self._prepare_data(df, inputs, outputs) *)
  prepared ← _prepare_data df inputs outputs None;
  match prepared with
  | [dt; u; u1; y] => _eval_log_likelihood dt u u1 y
  | _ => raise ValueError
  end.

Definition predict (df : DataFrame) (outputs inputs : option Names)
    (tnew : option TNew) (x0 P0 : option Obj) (smooth : bool)
    : M W (ndarray T * ndarray T) :=
  ny ← gets ss_ny;
  if decide (1 < ny) then raise NotImplementedError
  else
    prepared ← _prepare_data df inputs outputs tnew;
    match prepared with
    | [dt; u; u1; y; index_back] =>
        '(x, P) ← _estimate_states dt u u1 y x0 P0 smooth;
        (* keep only the part corresponding to tnew *)
        '(x, P) ← match tnew with
                  | Some tn =>
                      x ← lift (take_items (as_index index_back) x);
                      P ← lift (take_items (as_index index_back) P);
                      mret (last_items (tnew_len tn) x, last_items (tnew_len tn) P)
                  | None => mret (x, P)
                  end;
        C ← gets ss_C;
        y_mean ← lift (matmul_left C x);
        C ← gets ss_C;
        CP ← lift (matmul_left C P);
        C ← gets ss_C;
        CPCt ← lift (matmul_right CP (transpose C));
        R ← gets ss_R;
        y_std ← lift (stack_add (stack_sqrt CPCt) R);
        mret (squeeze (stack_array y_mean), squeeze (stack_array y_std))
    | _ => raise ValueError
    end.

(** The part of a stack that [predict] keeps when new time instants are
    given: the items at [index_back], then the last [len(tnew)] of them. *)
Definition select_new (tnew : option TNew) (index_back : Obj) (s : stack T)
  : outcome (stack T) :=
  match tnew with
  | Some tn =>
      s' ← take_items (as_index index_back) s;
      Ok (last_items (tnew_len tn) s')
  | None => Ok s
  end.

(** The output variance form [c P c^T] of one covariance matrix [Pt], for
    the single row [c] of C. *)
Definition output_variance (c : list T) (Pt : matrix T) : T :=
  dot (dot c <$> transpose Pt) c.

(** *** fit *)

(** Values of the [options] dictionary. *)
Inductive optval :=
  | OBool (b : bool)
  | OFloat (f : float)
  | OStr (s : string).

(** [d.setdefault(k, v)] and [d.pop(k, default)] *)
Definition setdefault (k : string) (v : optval) (d : gmap string optval)
  : gmap string optval :=
  match d !! k with
  | Some _ => d
  | None => <[k := v]> d
  end.

Definition pop (k : string) (dflt : optval) (d : gmap string optval)
  : optval * gmap string optval :=
  (default dflt (d !! k), delete k d).

(** The [jac] argument of [scipy.optimize.minimize]: absent, the name of a
    finite-difference scheme, or a callable that returns the gradient. *)
Inductive jac_arg :=
  | JacNone
  | JacScheme (name : string)
  | JacCallable (g : list T -> list T).

(** One call of [scipy.optimize.minimize], by its keyword arguments. *)
Record minimize_call := MinimizeCall {
  mc_fun : list T -> list Obj -> M W T;
  mc_x0 : list T;
  mc_args : list Obj;
  mc_method : string;
  mc_jac : jac_arg;
  mc_options : gmap string optval
}.

(** What [fit] reads of the optimizer's result. *)
Record optimize_result := OptimizeResult {
  hess_inv : matrix T;
  jac : list T
}.

(** [pd.DataFrame(data=..., columns=..., index=...)] *)
Record frame := Frame {
  fr_data : matrix T;
  fr_columns : list string;
  fr_index : list string
}.

Definition make_frame (data : matrix T) (columns index : list string) : outcome frame :=
  if bool_decide (length data = length index)
     && forallb (fun row => bool_decide (length row = length columns)) data
  then Ok {| fr_data := data; fr_columns := columns; fr_index := index |}
  else Raise ValueError.

(** More collaborators: the parameter set, the data preparation of the
    state-space model, the objective, the optimizer, the t-test, the display
    option of pandas and the three attributes [fit] assigns. *)
Context (init_parameters : nat -> optval -> optval -> M W (list T)).
Context (set_eta : list T -> M W unit).
Context (eta_free eta_jacobian scale theta_free d_penalty : W -> list T).
Context (names_free : W -> list string).
Context (ss_prepare_data :
           DataFrame -> option Names -> option Names -> M W (list Obj)).
Context (_eval_log_posterior : list T -> list Obj -> M W T).
Context (minimize : minimize_call -> M W optimize_result).
Context (ttest : list T -> list T -> nat -> outcome (list T)).
Context (obj_shape : Obj -> list nat).
Context (pd_set_option : string -> M W unit).
Context (set_summary_ set_corr_ : frame -> W -> W).
Context (set_results_ : optimize_result -> W -> W).

(** The options as [fit] completes them, with the two keys it takes out. *)
Definition fit_options (options : option (gmap string optval))
  : optval * optval * gmap string optval :=
  let options := default ∅ options in
  let options := setdefault "disp" (OBool true) options in
  let options := setdefault "gtol" (OFloat 0x1.a36e2eb1c432dp-14) options in
  let '(init, options) := pop "init" (OStr "fixed") options in
  let '(hpd, options) := pop "hpd" (OFloat 0x1.e666666666666p-1) options in
  (init, hpd, options).

(** The call [fit] makes to the optimizer. *)
Definition fit_minimize_call (x0 : list T) (data : list Obj)
    (options : gmap string optval) : minimize_call :=
  {| mc_fun := _eval_log_posterior;
     mc_x0 := x0;
     mc_args := data;
     mc_method := "BFGS";
     mc_jac := JacScheme "3-point";
     mc_options := options |}.

Definition fit (df : DataFrame) (outputs inputs : option Names)
    (options : option (gmap string optval))
    : M W (frame * frame * optimize_result) :=
  let '(init, hpd, options) := fit_options options in
  eta ← init_parameters 1 init hpd;
  set_eta eta ;;
  data ← ss_prepare_data df inputs outputs;
  x0 ← gets eta_free;
  results ← minimize (fit_minimize_call x0 data options);
  (* inverse jacobian of the transform eta = f(theta) *)
  eta_jac ← gets eta_jacobian;
  let inv_jac := diag_matrix ((fun x => s_one / x)%S <$> eta_jac) in
  (* covariance matrix in the constrained space (e.g. theta) *)
  m ← lift (matmul inv_jac (hess_inv results));
  cov_theta ← lift (matmul m inv_jac);
  (* standard deviation of the constrained parameters *)
  sc ← gets scale;
  sig_theta ← lift (vec_mul (s_sqrt <$> diag_of cov_theta) sc);
  let inv_sig_theta :=
    diag_matrix ((fun x => s_one / s_sqrt x)%S <$> diag_of cov_theta) in
  (* correlation matrix of the constrained parameters *)
  m ← lift (matmul inv_sig_theta cov_theta);
  corr_matrix ← lift (matmul m inv_sig_theta);
  pd_set_option "display.float_format" ;;
  th ← gets theta_free;
  th' ← gets theta_free;
  d2 ← lift (of_option IndexError (data !! 2));
  n ← lift (of_option IndexError (obj_shape d2 !! 1));
  pvalue ← lift (ttest th' sig_theta n);
  dpen ← gets d_penalty;
  table ← lift (vstack [th; sig_theta; pvalue; s_abs <$> jac results; s_abs <$> dpen]);
  index ← gets names_free;
  df ← lift (make_frame (transpose table)
               ["θ"; "σ(θ)"; "pvalue"; "|g(η)|"; "|dpen(θ)|"] index);
  index ← gets names_free;
  columns ← gets names_free;
  df_corr ← lift (make_frame corr_matrix columns index);
  modify (set_summary_ df) ;;
  modify (set_corr_ df_corr) ;;
  modify (set_results_ results) ;;
  mret (df, df_corr, results).

(** *** The gradient the optimizer works with

    SciPy's contract for [jac]: a callable is the gradient; the name of a
    scheme asks for a finite-difference estimate from values of the
    objective, forward differences for '2-point' (also the default) and
    central differences for '3-point', each coordinate moved by its own
    step. The complex-step scheme is left out. *)

Inductive fd_scheme := TwoPoint | ThreePoint.

Definition scheme_of_name (name : string) : option fd_scheme :=
  if decide (name = "2-point") then Some TwoPoint
  else if decide (name = "3-point") then Some ThreePoint
  else None.

Definition finite_difference (scheme : fd_scheme) (f : list T -> T)
    (step : T -> T) (x : list T) : list T :=
  imap (fun i xi =>
          let h := step xi in
          match scheme with
          | TwoPoint =>
              (f (<[i := xi + h]> x) - f x) / ((xi + h) - xi)
          | ThreePoint =>
              (f (<[i := xi + h]> x) - f (<[i := xi - h]> x))
              / ((xi + h) - (xi - h))
          end)%S x.

Definition optimizer_gradient (j : jac_arg) (f : list T -> T)
    (step : T -> T) (x : list T) : outcome (list T) :=
  match j with
  | JacCallable g => Ok (g x)
  | JacNone => Ok (finite_difference TwoPoint f step x)
  | JacScheme name =>
      scheme ← of_option ValueError (scheme_of_name name);
      Ok (finite_difference scheme f step x)
  end.
End Regressor.
End FreqRegressor.

(** ** An objective to test the optimizer's gradient on *)

Section Cube.
Local Open Scope R_scope.

(** The objective of the counterexample: the cube of the first coordinate. *)
Definition cube (eta : list R) : R :=
  let x := nth 0%nat eta 0 in x * x * x.

Definition cube_gradient (eta : list R) : list R :=
  let x := nth 0%nat eta 0 in [3 * x * x].

Definition cube_posterior (eta : list R) (data : list unit) : M unit R :=
  mret (cube eta).
End Cube.

(** ** The square-root Kalman filter *)

Module KalmanQR.
Section Filter.
Context {T : Type} `{Scalar T}.

(** The discretized model of one step, a state mean, a covariance factor and
    an input sample, as the filter passes them along. *)
Context {Model Mean Factor Input : Type}.

(** The linear algebra of one step, which the specification names and leaves
    to the implementation: the propagated mean; the matrix stacking the
    propagated previous factor and the process-noise square root; the matrix
    joining the prior factor, the measurement matrix and the
    measurement-noise factor; the triangularizing decomposition, which has
    no result when it cannot be formed; and what is read off a triangle. *)
Context (propagate_mean : Model -> Input -> Mean -> Mean).
Context (prior_stack : Model -> Factor -> matrix T).
Context (joint_stack : Model -> Factor -> matrix T).
Context (triangularize : matrix T -> option (matrix T)).
Context (prior_of : matrix T -> Factor).
Context (innovation_std : matrix T -> T).
Context (filtered_of : matrix T -> Factor).
Context (correct : matrix T -> Mean -> T -> Mean).
Context (predicted_output : Model -> Mean -> T).
Context (s_log : T -> T) (log_constant : T).

Record FilterStep := {
  prior_mean : Mean;
  prior_factor : Factor;
  filtered_mean : Mean;
  filtered_factor : Factor;
  residual : option T;
  residual_std : option T
}.

(** What the pass carries from step to step: the records so far, the
    filtered state, the negative log-likelihood. *)
Definition carry : Type := list FilterStep * (Mean * Factor) * T.

(** Modelled from the spec: one step of the forward pass of the filter
    ([filters/kalman_qr.py], which is not among the sources). Predict
    propagates the mean and triangularizes the stacked matrix into the prior
    factor. Update, only where an observation exists, triangularizes the
    joint matrix into the innovation deviation, the filtered factor and the
    gain, and standardizes the residual; a missing observation carries the
    prediction forward. A triangularization that cannot be formed raises
    NumericalInstabilityError. The likelihood adds
    [log(deviation) + residual^2 / 2] and a constant per observed step. The
    sensitivity recursion, which factorizes nothing, is left out. *)
Definition forward_step (step : Model * Input * option T) (c : carry)
  : outcome carry :=
  let '(m, u, y) := step in
  let '(out, (x, Sq), nll) := c in
  let xp := propagate_mean m u x in
  tri ← of_option NumericalInstabilityError (triangularize (prior_stack m Sq));
  let Sp := prior_of tri in
  match y with
  | None =>
      Ok (out ++ [{| prior_mean := xp; prior_factor := Sp;
                     filtered_mean := xp; filtered_factor := Sp;
                     residual := None; residual_std := None |}],
          (xp, Sp), nll)
  | Some yk =>
      J ← of_option NumericalInstabilityError (triangularize (joint_stack m Sp));
      let sd := innovation_std J in
      let r := ((yk - predicted_output m xp) / sd)%S in
      let xf := correct J xp r in
      let Sf := filtered_of J in
      Ok (out ++ [{| prior_mean := xp; prior_factor := Sp;
                     filtered_mean := xf; filtered_factor := Sf;
                     residual := Some r; residual_std := Some sd |}],
          (xf, Sf),
          (nll + (s_log sd + r * r / (s_one + s_one) + log_constant))%S)
  end.

(** Modelled from the spec: the forward pass, strictly in time order. *)
Fixpoint forward (steps : list (Model * Input * option T)) (c : carry)
  : outcome carry :=
  match steps with
  | [] => Ok c
  | step :: steps' => c' ← forward_step step c; forward steps' c'
  end.

Definition filtering (steps : list (Model * Input * option T))
    (x0 : Mean) (S0 : Factor) : outcome (list FilterStep * T) :=
  c ← forward steps ([], (x0, S0), s_zero);
  Ok (c.1.1, c.2).

(** A triangularization the step needs cannot be formed: the prior one, or,
    with an observation present, the joint one. *)
Definition factorization_fails (step : Model * Input * option T) (Sq : Factor)
  : Prop :=
  triangularize (prior_stack step.1.1 Sq) = None
  \/ exists tri yk,
       triangularize (prior_stack step.1.1 Sq) = Some tri
       /\ step.2 = Some yk
       /\ triangularize (joint_stack step.1.1 (prior_of tri)) = None.

(** A record whose factors are results of triangularizations that were
    formed. *)
Definition from_factorizations (st : FilterStep) : Prop :=
  (exists stacked tri,
      triangularize stacked = Some tri /\ prior_factor st = prior_of tri)
  /\ match residual_std st with
     | Some sd =>
         exists joint J,
           triangularize joint = Some J
           /\ sd = innovation_std J /\ filtered_factor st = filtered_of J
     | None => filtered_factor st = prior_factor st
     end.
End Filter.
End KalmanQR.

(** * Properties of the model *)

(** ** What a method leaves untouched *)

Section Frames.
Context {S : Type}.

(** [frames g m]: running [m] does not change the observation [g] of the
    state, whether [m] returns or raises. *)
Definition frames {X A} (g : S -> X) (m : M S A) : Prop :=
  forall s, g (exec m s) = g s.

Lemma frames_ret {X A} (g : S -> X) (a : A) : frames g (mret a).
Proof. intros s. reflexivity. Qed.

Lemma frames_raise {X A} (g : S -> X) e : frames g (raise e : M S A).
Proof. intros s. reflexivity. Qed.

Lemma frames_gets {X A} (g : S -> X) (f : S -> A) : frames g (gets f).
Proof. intros s. reflexivity. Qed.

Lemma frames_bind {X A B} (g : S -> X) (m : M S A) (k : A -> M S B) :
  frames g m -> (forall a, frames g (k a)) -> frames g (m ≫= k).
Proof.
  intros Hm Hk s. unfold exec, mbind, M_bind.
  specialize (Hm s). unfold exec in Hm.
  destruct (m s) as [[a|e] s1]; simpl in *.
  - rewrite <- Hm. apply Hk.
  - exact Hm.
Qed.
End Frames.

Create HintDb frames.
#[export] Hint Resolve frames_ret frames_raise frames_gets : frames.

Section ModelFrames.
Context {T : Type} `{Scalar T}.

Lemma mat_set_mat_ne id id' (m : matrix T) s :
  id' <> id -> SS.mat id' (SS.set_mat id m s) = SS.mat id' s.
Proof. intros Hne. destruct id, id'; try reflexivity; congruence. Qed.

Lemma mat_set_mat_eq id (m : matrix T) s : SS.mat id (SS.set_mat id m s) = m.
Proof. destruct id; reflexivity. Qed.

Lemma mat_set_jac id id' (d : gmap string (matrix T)) s :
  SS.mat id' (SS.set_jac id d s) = SS.mat id' s.
Proof. destruct id'; reflexivity. Qed.

Lemma jac_set_mat id id' (m : matrix T) s :
  SS.jac id' (SS.set_mat id m s) = SS.jac id' s.
Proof. destruct id'; reflexivity. Qed.

Lemma frames_assign_mat id id' f :
  id' <> id -> frames (SS.mat (T:=T) id') (assign_mat id f).
Proof.
  intros Hne s. unfold exec, assign_mat.
  destruct (f (SS.mat id s)); simpl; [apply mat_set_mat_ne, Hne | reflexivity].
Qed.

Lemma frames_assign_jac id id' k f :
  frames (SS.mat (T:=T) id') (assign_jac id k f).
Proof.
  intros s. unfold exec, assign_jac.
  destruct (SS.jac id s !! k) as [m|]; [|reflexivity].
  destruct (f m); simpl; [apply mat_set_jac | reflexivity].
Qed.

Lemma frames_assign_mat_jac id id' f :
  frames (SS.jac (T:=T) id') (assign_mat id f).
Proof.
  intros s. unfold exec, assign_mat.
  destruct (f (SS.mat id s)); simpl; [apply jac_set_mat | reflexivity].
Qed.
End ModelFrames.

#[export] Hint Resolve frames_assign_jac frames_assign_mat_jac : frames.
#[export] Hint Extern 1 (frames (SS.mat _) (assign_mat _ _)) =>
  apply frames_assign_mat; discriminate : frames.
#[export] Hint Extern 2 (frames _ (_ ≫= _)) =>
  apply frames_bind; [|intros ?] : frames.

Ltac explode th :=
  do 14 (let x := fresh "x" in
         destruct th as [|x th]; [try (simpl in *; lia); try reflexivity|]).

Section ModelFacts.
Context {T : Type} `{Scalar T}.
Import TwTi_RoRiAwAicv.

Lemma frames_update_state_space_model id (theta : list T) :
  id = mC \/ id = mD -> frames (SS.mat id) (update_state_space_model theta).
Proof.
  intros Hid. unfold update_state_space_model.
  repeat (destruct theta as [|? theta]; [apply frames_raise|]).
  destruct Hid as [-> | ->]; auto 30 with frames.
Qed.

Lemma frames_update_jacobian id (theta : list T) :
  frames (SS.mat id) (update_jacobian theta).
Proof.
  unfold update_jacobian.
  repeat (destruct theta as [|? theta]; [apply frames_raise|]).
  auto 30 with frames.
Qed.

Lemma frames_set_jacobian id : frames (SS.mat (T:=T) id) set_jacobian.
Proof. unfold set_jacobian. auto 30 with frames. Qed.

Lemma frames_evaluate id (theta : list T) :
  id = mC \/ id = mD -> frames (SS.mat id) (evaluate theta).
Proof.
  intros Hid. apply frames_bind.
  - apply frames_update_state_space_model, Hid.
  - intros _. apply frames_update_jacobian.
Qed.
End ModelFacts.

(** ** The parameter vector is read positionally *)

Section Positional.
Context {T : Type} `{Scalar T}.
Import TwTi_RoRiAwAicv.

Lemma update_state_space_model_take (theta : list T) :
  update_state_space_model theta = update_state_space_model (take 14 theta).
Proof.
  do 14 (destruct theta as [|? theta]; [reflexivity|]). reflexivity.
Qed.

Lemma update_jacobian_take7 (theta : list T) :
  update_jacobian theta = update_jacobian (take 7 theta).
Proof.
  do 7 (destruct theta as [|? theta]; [reflexivity|]). reflexivity.
Qed.

Lemma update_jacobian_take (theta : list T) :
  update_jacobian theta = update_jacobian (take 14 theta).
Proof.
  rewrite (update_jacobian_take7 theta), (update_jacobian_take7 (take 14 theta)).
  rewrite take_take. reflexivity.
Qed.

Lemma update_state_space_model_short (theta : list T) s :
  length theta < 14 -> update_state_space_model theta s = (Raise ValueError, s).
Proof.
  intros Hl. do 14 (destruct theta as [|? theta]; [reflexivity|]).
  simpl in Hl. lia.
Qed.

Lemma update_jacobian_short (theta : list T) s :
  length theta < 7 -> update_jacobian theta s = (Raise ValueError, s).
Proof.
  intros Hl. do 7 (destruct theta as [|? theta]; [reflexivity|]).
  simpl in Hl. lia.
Qed.
End Positional.

(** Spelling out a parameter vector known to be long enough. *)
Ltac spell1 th Hlen :=
  let x := fresh "x" in
  destruct th as [|x th]; [exfalso; simpl in Hlen; lia|].
Ltac spell7 th Hlen := do 7 (spell1 th Hlen); clear Hlen.
Ltac spell14 th Hlen := do 14 (spell1 th Hlen); clear Hlen.

(** ** The shape of every reachable state

    A reachable state is determined by the last parameter vector each of the
    two update methods ran on: both overwrite all they write, and on a
    constructed object none of their assignments can raise. *)

Section Canonical.
Context {T : Type} `{Scalar T}.
Import TwTi_RoRiAwAicv.

Lemma step_model sX sC th o1 o2 :
  14 <= length th -> long 14 o1 -> long 7 o2 ->
  exec (update_state_space_model th) (after sX sC o1 o2) = after sX sC (Some th) o2.
Proof.
  intros Hl H1 H2. spell14 th Hl.
  destruct o1 as [la|], o2 as [lb|]; unfold TwTi_RoRiAwAicv.long, from_option in H1, H2.
  - spell14 la H1. spell7 lb H2. vm_compute. reflexivity.
  - spell14 la H1. vm_compute. reflexivity.
  - spell7 lb H2. vm_compute. reflexivity.
  - vm_compute. reflexivity.
Qed.

Lemma step_jacobian sX sC th o1 o2 :
  7 <= length th -> long 14 o1 -> long 7 o2 ->
  exec (update_jacobian th) (after sX sC o1 o2) = after sX sC o1 (Some th).
Proof.
  intros Hl H1 H2. spell7 th Hl.
  destruct o1 as [la|], o2 as [lb|]; unfold TwTi_RoRiAwAicv.long, from_option in H1, H2.
  - spell14 la H1. spell7 lb H2. vm_compute. reflexivity.
  - spell14 la H1. vm_compute. reflexivity.
  - spell7 lb H2. vm_compute. reflexivity.
  - vm_compute. reflexivity.
Qed.

Lemma reachable_after sX sC s :
  reachable sX sC s ->
  exists o1 o2, long 14 o1 /\ long 7 o2 /\ s = after sX sC o1 o2.
Proof.
  induction 1 as [|theta s Hr (o1 & o2 & H1 & H2 & ->)|theta s Hr (o1 & o2 & H1 & H2 & ->)].
  - exists None, None. repeat split.
  - destruct (decide (14 <= length theta)) as [Hl|Hl].
    + exists (Some theta), o2. rewrite step_model by assumption. repeat split; assumption.
    + exists o1, o2. unfold exec.
      rewrite update_state_space_model_short by lia. repeat split; assumption.
  - destruct (decide (7 <= length theta)) as [Hl|Hl].
    + exists o1, (Some theta). rewrite step_jacobian by assumption. repeat split; assumption.
    + exists o1, o2. unfold exec.
      rewrite update_jacobian_short by lia. repeat split; assumption.
Qed.

Lemma after_reachable sX sC o1 o2 : reachable sX sC (after sX sC o1 o2).
Proof.
  unfold after. destruct o1 as [la|], o2 as [lb|]; simpl;
    repeat first [apply reach_jacobian | apply reach_model | apply reach_construct].
Qed.
End Canonical.

(** Case analysis on a reachable state: it becomes [after sX sC o1 o2] with
    each parameter vector spelled out entry by entry. *)
Ltac canonical Hr :=
  let o1 := fresh "o1" in let o2 := fresh "o2" in
  let H1 := fresh "H1" in let H2 := fresh "H2" in
  let la := fresh "la" in let lb := fresh "lb" in
  apply reachable_after in Hr; destruct Hr as (o1 & o2 & H1 & H2 & ->);
  destruct o1 as [la|], o2 as [lb|]; unfold TwTi_RoRiAwAicv.long, from_option in H1, H2;
  [ spell14 la H1; spell7 lb H2
  | spell14 la H1; clear H2
  | spell7 lb H2; clear H1
  | clear H1 H2 ].

(** ** Calls between construction and now *)

Section Calls.
Context {T : Type} `{Scalar T}.
Import TwTi_RoRiAwAicv.

Lemma run_calls_frame id cs s :
  id = mC \/ id = mD -> SS.mat id (run_calls cs s) = SS.mat id s.
Proof.
  intros Hid. revert s. induction cs as [|c cs IH]; intros s; [reflexivity|].
  simpl. rewrite IH. destruct c as [theta|theta]; simpl.
  - apply frames_update_state_space_model, Hid.
  - apply frames_update_jacobian.
Qed.

Lemma run_calls_reachable sX sC cs s :
  reachable sX sC s -> reachable sX sC (run_calls cs s).
Proof.
  revert s. induction cs as [|c cs IH]; intros s Hr; [exact Hr|].
  simpl. apply IH. destruct c; [apply reach_model | apply reach_jacobian]; exact Hr.
Qed.

Lemma set_constant_writes (s : SS.t T) :
  (set_constant s).1 = Ok tt -> getitem 0 1 (SS.C (exec set_constant s)) = Ok s_one.
Proof.
  unfold set_constant, exec, assign_mat, setitem, getitem. simpl.
  destruct (SS.C s !! 0) as [row|] eqn:Hrow; [|discriminate].
  destruct (decide (1 < length row)) as [Hlt|]; [|discriminate].
  intros _. simpl.
  rewrite list_lookup_insert_eq by (apply lookup_lt_Some in Hrow; exact Hrow).
  simpl. rewrite list_lookup_insert_eq by exact Hlt. reflexivity.
Qed.
End Calls.

Section Claims.
Context {T : Type} `{Scalar T}.
Import TwTi_RoRiAwAicv.


(** C5: [set_constant] is the only method that writes C (entry [0, 1], set to
    one); [set_jacobian], [update_state_space_model] and [update_jacobian]
    leave C and D as they are, returning or raising, so both stay as
    [set_constant] left them through any number of evaluations. *)
Theorem constant_entries_untouched (s : SS.t T) (cs : list call) :
  let s1 := exec set_constant s in
  let s2 := run_calls cs (exec set_jacobian s1) in
  (forall theta s,
      SS.C (exec (update_state_space_model theta) s) = SS.C s
      /\ SS.D (exec (update_state_space_model theta) s) = SS.D s
      /\ SS.C (exec (update_jacobian theta) s) = SS.C s
      /\ SS.D (exec (update_jacobian theta) s) = SS.D s)
  /\ SS.C s2 = SS.C s1 /\ SS.D s2 = SS.D s1
  /\ ((set_constant s).1 = Ok tt -> getitem 0 1 (SS.C s2) = Ok s_one).
Proof.
  intros s1 s2.
  assert (HC : SS.C s2 = SS.C s1).
  { unfold s2. change (SS.C ?x) with (SS.mat mC x).
    rewrite run_calls_frame by auto. apply frames_set_jacobian. }
  assert (HD : SS.D s2 = SS.D s1).
  { unfold s2. change (SS.D ?x) with (SS.mat mD x).
    rewrite run_calls_frame by auto. apply frames_set_jacobian. }
  repeat split; try assumption.
  - apply (frames_update_state_space_model mC); auto.
  - apply (frames_update_state_space_model mD); auto.
  - apply (frames_update_jacobian mC).
  - apply (frames_update_jacobian mD).
  - intros Hok. rewrite HC. apply set_constant_writes, Hok.
Qed.
End Claims.

Section Shapes.
Context {T : Type} `{Scalar T}.
Import TwTi_RoRiAwAicv.

Lemma symmetric_diag2 (a b z : T) : symmetric [[a; z]; [z; b]].
Proof. intros [|[|i]] [|[|j]]; reflexivity. Qed.

Lemma symmetric_1 (a : T) : symmetric [[a]].
Proof. intros [|i] [|j]; reflexivity. Qed.

Lemma reachable_shapes sX sC s :
  reachable sX sC s ->
  forallb (fun id => has_shape (shape id).1 (shape id).2 (SS.mat id s)) mat_ids = true.
Proof. intros Hr. canonical Hr; vm_compute; reflexivity. Qed.

Lemma reachable_diagonal sX sC s :
  reachable sX sC s ->
  (exists a b, SS.Q s = [[a; s_zero]; [s_zero; b]])
  /\ (exists a, SS.R s = [[a]])
  /\ (exists a b, SS.P0 s = [[a; s_zero]; [s_zero; b]]).
Proof.
  intros Hr.
  canonical Hr;
    (split; [|split]; [do 2 eexists | eexists | do 2 eexists]; vm_compute; reflexivity).
Qed.

Lemma reachable_update_ok sX sC s theta :
  reachable sX sC s -> 14 <= length theta ->
  (update_state_space_model theta s).1 = Ok tt.
Proof.
  intros Hr Hl. spell14 theta Hl. canonical Hr; vm_compute; reflexivity.
Qed.

Lemma reachable_jacobian_ok sX sC s theta :
  reachable sX sC s -> 7 <= length theta ->
  (update_jacobian theta s).1 = Ok tt.
Proof.
  intros Hr Hl. spell7 theta Hl. canonical Hr; vm_compute; reflexivity.
Qed.

End Shapes.

(** ** The derivative maps hold the partial derivatives *)

Section Derivatives.
Import TwTi_RoRiAwAicv.
Local Open Scope R_scope.

Lemma dl_const c x : derivable_pt_lim (fun _ => c) x 0.
Proof. exact (derivable_pt_lim_const c x). Qed.

Lemma dl_id x : derivable_pt_lim (fun v => v) x 1.
Proof. exact (derivable_pt_lim_id x). Qed.

Lemma dl_plus f g x a b :
  derivable_pt_lim f x a -> derivable_pt_lim g x b ->
  derivable_pt_lim (fun v => f v + g v) x (a + b).
Proof. exact (derivable_pt_lim_plus f g x a b). Qed.

Lemma dl_mult f g x a b :
  derivable_pt_lim f x a -> derivable_pt_lim g x b ->
  derivable_pt_lim (fun v => f v * g v) x (a * g x + f x * b).
Proof. exact (derivable_pt_lim_mult f g x a b). Qed.

Lemma dl_opp f x a :
  derivable_pt_lim f x a -> derivable_pt_lim (fun v => - f v) x (- a).
Proof. exact (derivable_pt_lim_opp f x a). Qed.

Lemma dl_inv f x a :
  derivable_pt_lim f x a -> f x <> 0 ->
  derivable_pt_lim (fun v => / f v) x (- a / (f x * f x)).
Proof.
  intros Hf Hx.
  apply (derivable_pt_lim_ext (fun v => 1 / f v)).
  - intros z. unfold Rdiv. apply Rmult_1_l.
  - pose proof (derivable_pt_lim_div (fct_cte 1) f x 0 a
                  (derivable_pt_lim_const 1 x) Hf Hx) as Hd.
    unfold fct_cte, Rsqr in Hd.
    replace (- a / (f x * f x)) with ((0 * f x - a * 1) / (f x * f x)) by (field; exact Hx).
    exact Hd.
Qed.

Lemma dl_change f f' x x' l l' :
  f = f' -> x = x' -> l' = l ->
  derivable_pt_lim f' x' l' -> derivable_pt_lim f x l.
Proof. intros -> -> ->. intros Hd. exact Hd. Qed.
End Derivatives.

(** Differentiating a term built from the variable, constants, sums,
    products, opposites and inverses; the inverses leave their side
    conditions. *)
Ltac dl :=
  lazymatch goal with
  | |- derivable_pt_lim (fun _ => ?c) _ _ => apply dl_const
  | |- derivable_pt_lim (fun v => v) _ _ => apply dl_id
  | |- derivable_pt_lim (fun v => (@?f v + @?g v)%R) ?x _ =>
      apply (dl_plus f g x); dl
  | |- derivable_pt_lim (fun v => (@?f v * @?g v)%R) ?x _ =>
      apply (dl_mult f g x); dl
  | |- derivable_pt_lim (fun v => (- @?f v)%R) ?x _ =>
      apply (dl_opp f x); dl
  | |- derivable_pt_lim (fun v => (/ @?f v)%R) ?x _ =>
      apply (dl_inv f x); [dl | cbv beta]
  end.

Section Jacobian.
Import TwTi_RoRiAwAicv.
Local Open Scope R_scope.

Lemma mul_R0_r r : r * R0 = R0.
Proof. exact (Rmult_0_r r). Qed.

Lemma mul_R0_l r : R0 * r = R0.
Proof. exact (Rmult_0_l r). Qed.

Lemma inv_R0 : / R0 = R0.
Proof. exact Rinv_0. Qed.
End Jacobian.

Ltac nonzero :=
  repeat apply Rmult_integral_contrapositive_currified; assumption.

(** One entry of one derivative map, on the normal forms of the entry and
    of its claimed derivative. *)
Ltac entry_by_rules :=
  eapply dl_change;
    [vm_compute; reflexivity | vm_compute; reflexivity | | ];
    [ | dl; nonzero ];
  cbv beta; first [reflexivity | field; repeat split; assumption].

(** The same when the capacity scale is zero: every quotient by it is the
    total division's zero, the entry is constant and so is its slot. *)
Ltac entry_degenerate :=
  eapply dl_change;
    [vm_compute; reflexivity | vm_compute; reflexivity | | ];
    [ | apply (derivable_pt_lim_ext (fun _ => R0));
        [ intros ?; cbv beta;
          rewrite ?mul_R0_r, ?inv_R0, ?mul_R0_r; reflexivity
        | apply dl_const ] ];
  rewrite ?mul_R0_r, ?inv_R0, ?mul_R0_r; reflexivity.

Ltac entry_case :=
  do 2 eexists; split; [vm_compute; reflexivity|];
  split; [vm_compute; reflexivity|];
  first [entry_by_rules | entry_degenerate].

(** Case analysis on an index below a known bound. *)
Ltac enum i :=
  destruct i as [|i]; [ | first [ exfalso; lia | enum i ] ].

Ltac enum_name k Hk :=
  destruct k as [|k];
    [ vm_compute in Hk; injection Hk as <-
    | first [ exfalso; lia | enum_name k Hk ] ].

Section JacobianClaim.
Import TwTi_RoRiAwAicv.
Local Open Scope R_scope.

(** C1: for every theta with Ro, Ri, Cw, Ci nonzero, each entry of each
    derivative map, as [set_jacobian] and [update_jacobian] leave it, is the
    partial derivative, with respect to the parameter that keys it, of the
    same entry of the matrix [update_state_space_model] builds. This covers
    the entries written and the zeros left in place, for all of dA, dB, dC,
    dD, dQ, dR, dx0, dP0 and all fourteen parameters. *)
Theorem jacobian_is_partial_derivative
    (sX sC Ro Ri Cw Ci Aw Ai cv sigw_w sigw_i sigv x0_w x0_i sigx0_w sigx0_i : R)
    (rest : list R) :
  let theta := Ro :: Ri :: Cw :: Ci :: Aw :: Ai :: cv :: sigw_w :: sigw_i
                 :: sigv :: x0_w :: x0_i :: sigx0_w :: sigx0_i :: rest in
  Ro <> 0 -> Ri <> 0 -> Cw <> 0 -> Ci <> 0 ->
  forall (id : mat_id) (k : nat) (name : string) (i j : nat),
    names !! k = Some name ->
    (i < (shape id).1)%nat -> (j < (shape id).2)%nat ->
    exists dM d,
      SS.jac id (built sX sC theta) !! name = Some dM
      /\ (dM !! i ≫= fun row => row !! j) = Some d
      /\ derivable_pt_lim
           (fun v => entry (SS.mat id (built sX sC (<[k := v]> theta))) i j)
           (nth k theta 0) d.
Proof.
  intros theta HRo HRi HCw HCi id k name i j Hk Hi Hj. subst theta.
  assert (Hk14 : (k < 14)%nat) by (apply lookup_lt_Some in Hk; exact Hk).
  destruct (Req_dec sC 0) as [->|HsC].
  - destruct id; vm_compute in Hi, Hj; enum i; enum j; enum_name k Hk;
      clear Hi Hj Hk14; entry_case.
  - destruct id; vm_compute in Hi, Hj; enum i; enum j; enum_name k Hk;
      clear Hi Hj Hk14; entry_case.
Qed.
End JacobianClaim.

(** ** Every parameter has its slot in every derivative map *)

Section Completeness.
Import TwTi_RoRiAwAicv.
Local Open Scope R_scope.

Lemma inv_scale_inj x y a b t :
  t <> 0 -> a <> 0 -> b <> 0 ->
  x * / (a * t) = y * / (b * t) -> x * b = y * a.
Proof.
  intros Ht Ha Hb E.
  apply (Rmult_eq_reg_r (/ (a * b * t))).
  - transitivity (x * / (a * t)); [field; auto|].
    rewrite E. field; auto.
  - apply Rinv_neq_0_compat.
    repeat apply Rmult_integral_contrapositive_currified; assumption.
Qed.

Lemma valid_ones : valid (replicate 14 1).
Proof. split; [simpl; lia|]. simpl. repeat (constructor; [lra|]). constructor. Qed.

Lemma valid_ones_insert k : valid (<[k := 2]> (replicate 14 1)).
Proof.
  split; [rewrite length_insert; simpl; lia|].
  do 4 (destruct k as [|k]; [simpl; repeat (constructor; [lra|]); constructor|]).
  simpl. repeat (constructor; [lra|]). constructor.
Qed.
End Completeness.

(** Refuting [independent]: the vector of ones against the same vector with
    a two at the parameter's place gives two different matrices. *)
Ltac refute_independent Hind :=
  let E := fresh "E" in
  pose proof (Hind (replicate 14 1%R) 2%R valid_ones (valid_ones_insert _)) as E;
  vm_compute in E; injection E; intros;
  match goal with
  | E' : @eq R _ _ |- _ =>
      solve [ lra
            | match goal with Hs : _ <> 0%R |- _ => apply Hs; lra end
            | apply inv_scale_inj in E'; [lra | assumption | lra | lra] ]
  end.

Ltac slot_case :=
  eexists; split; [vm_compute; reflexivity|];
  split; [vm_compute; reflexivity|];
  first [ intros _; vm_compute; reflexivity
        | intros _; vm_compute;
          rewrite ?mul_R0_r, ?inv_R0, ?mul_R0_r; reflexivity
        | let Hind := fresh "Hind" in
          intros Hind; exfalso; refute_independent Hind ].

Section CompletenessClaim.
Import TwTi_RoRiAwAicv.
Local Open Scope R_scope.

(** C3: on a constructed model, before and after any evaluations, every
    derivative map dA, dB, dC, dD, dQ, dR, dx0, dP0 has an entry under every
    parameter name; the entry has the shape of its parent matrix, and it is
    the zero matrix whenever the parent does not depend on the parameter.
    A lookup by any declared parameter therefore succeeds. *)
Theorem derivative_maps_complete (sX sC : R) (s : SS.t R)
    (id : mat_id) (k : nat) (name : string) :
  reachable sX sC s ->
  names !! k = Some name ->
  exists dM,
    SS.jac id s !! name = Some dM
    /\ has_shape (shape id).1 (shape id).2 dM = true
    /\ (independent sX sC id k -> dM = zeros (shape id).1 (shape id).2).
Proof.
  intros Hr Hk.
  assert (Hk14 : (k < 14)%nat) by (apply lookup_lt_Some in Hk; exact Hk).
  destruct (Req_dec sC 0) as [->|HsC]; destruct (Req_dec sX 0) as [->|HsX];
    canonical Hr; destruct id; enum_name k Hk; clear Hk14; slot_case.
Qed.
End CompletenessClaim.

(** * Properties of the regressor *)

Section StackFacts.
Context {T : Type} `{Scalar T}.

Lemma mapM_raises {X Y} (f : X -> outcome Y) (l : list X) e e0 :
  (forall x, f x = Raise e -> e = e0) -> mapM f l = Raise e -> e = e0.
Proof.
  intros Hf. induction l as [|x l IH]; simpl; [discriminate|].
  destruct (f x) as [y|e'] eqn:Hx; simpl.
  - destruct (mapM f l) as [ys|e'']; simpl; [discriminate|].
    intros [= <-]. apply IH. reflexivity.
  - intros [= <-]. eapply Hf, Hx.
Qed.

Lemma take_items_raises idx (s : stack T) e :
  take_items idx s = Raise e -> e = IndexError.
Proof.
  unfold take_items. intros Hr.
  destruct (mapM _ idx) as [items|e'] eqn:Hm; simpl in Hr; [discriminate|].
  injection Hr as <-. eapply mapM_raises; [|exact Hm].
  intros i. unfold of_option. destruct (st_items s !! i); intros E; congruence.
Qed.

Lemma matmul_left_raises m (s : stack T) e :
  matmul_left m s = Raise e -> e = ValueError.
Proof. unfold matmul_left. destruct (decide _); congruence. Qed.

Lemma matmul_right_raises (s : stack T) m e :
  matmul_right s m = Raise e -> e = ValueError.
Proof. unfold matmul_right. destruct (decide _); congruence. Qed.

Lemma broadcast_dim_raises n m e :
  broadcast_dim n m = Raise e -> e = ValueError.
Proof. unfold broadcast_dim. repeat destruct (decide _); congruence. Qed.

Lemma stack_add_raises (s : stack T) m e :
  stack_add s m = Raise e -> e = ValueError.
Proof.
  unfold stack_add. intros Hr.
  destruct (broadcast_dim (st_rows s) (nrows m)) eqn:H1; simpl in Hr.
  - destruct (broadcast_dim (st_cols s) (ncols m)) eqn:H2; simpl in Hr; [discriminate|].
    injection Hr as <-. eapply broadcast_dim_raises, H2.
  - injection Hr as <-. eapply broadcast_dim_raises, H1.
Qed.

Lemma transpose_row (c : list T) : transpose [c] = (fun x => [x]) <$> c.
Proof.
  unfold transpose. simpl.
  induction c as [|x c IH]; simpl; [reflexivity|]. f_equal. exact IH.
Qed.

Lemma transpose_column (c : list T) :
  c <> [] -> transpose ((fun x => [x]) <$> c) = [c].
Proof.
  intros Hc. unfold transpose.
  replace (ncols ((fun x => [x]) <$> c)) with 1 by (destruct c; [congruence|reflexivity]).
  clear Hc. induction c as [|x c IH]; [reflexivity|].
  change (transpose_aux 1 ((fun x => [x]) <$> x :: c))
    with (zip_with cons [x] (transpose_aux 1 ((fun x => [x]) <$> c))).
  rewrite IH. reflexivity.
Qed.
End StackFacts.

Section RegressorClaims.
Context {T : Type} `{Scalar T}.
Context {DataFrame Names TNew Obj W : Type}.
Context (tnew_len : TNew -> nat) (as_index : Obj -> list nat).
Context (ss_ny : W -> nat) (ss_C ss_R : W -> matrix T).
Context (_prepare_data :
           DataFrame -> option Names -> option Names -> option TNew -> M W (list Obj)).
Context (_estimate_states :
           Obj -> Obj -> Obj -> Obj -> option Obj -> option Obj -> bool ->
           M W (stack T * stack T)).
Context (get_discrete_ssm : Obj -> M W (list Obj)).
Context (filtering : Obj -> Obj -> Obj -> Obj -> Obj -> M W (list (ndarray T))).

Local Abbreviation predict :=
  (FreqRegressor.predict tnew_len as_index ss_ny ss_C ss_R _prepare_data _estimate_states).
Local Abbreviation select_new :=
  (FreqRegressor.select_new tnew_len as_index).
Local Abbreviation eval_residuals :=
  (FreqRegressor.eval_residuals (DataFrame:=DataFrame) (Names:=Names)
     _prepare_data get_discrete_ssm filtering).

(** What a returning call of [predict] went through. *)
Lemma predict_inv df outputs inputs tnew x0 P0 smooth w y_mean y_std w' :
  predict df outputs inputs tnew x0 P0 smooth w = (Ok (y_mean, y_std), w') ->
  ss_ny w <= 1
  /\ exists dt u u1 y index_back w1 x P xs Ps YM CP CPCt S,
      _prepare_data df inputs outputs tnew w = (Ok [dt; u; u1; y; index_back], w1)
      /\ _estimate_states dt u u1 y x0 P0 smooth w1 = (Ok (x, P), w')
      /\ select_new tnew index_back x = Ok xs
      /\ select_new tnew index_back P = Ok Ps
      /\ matmul_left (ss_C w') xs = Ok YM
      /\ matmul_left (ss_C w') Ps = Ok CP
      /\ matmul_right CP (transpose (ss_C w')) = Ok CPCt
      /\ stack_add (stack_sqrt CPCt) (ss_R w') = Ok S
      /\ y_mean = squeeze (stack_array YM)
      /\ y_std = squeeze (stack_array S).
Proof.
  unfold FreqRegressor.predict, select_new, mbind, M_bind, gets, lift, raise, mret, M_ret.
  destruct (decide (1 < ss_ny w)); [discriminate|].
  intros Hp. split; [lia|].
  destruct (_prepare_data df inputs outputs tnew w) as [[prepared|e] w1] eqn:Hprep;
    [|discriminate].
  destruct prepared as [|dt [|u [|u1 [|y [|index_back [|? ?]]]]]];
    try discriminate.
  destruct (_estimate_states dt u u1 y x0 P0 smooth w1) as [[[x P]|e] w2] eqn:Hest;
    [|discriminate].
  exists dt, u, u1, y, index_back, w1, x, P.
  destruct tnew as [tn|]; simpl in Hp |- *.
  - destruct (take_items (as_index index_back) x) as [x1|e]; [|discriminate].
    destruct (take_items (as_index index_back) P) as [P1|e]; [|discriminate].
    simpl in Hp |- *.
    destruct (matmul_left (ss_C w2) (last_items (tnew_len tn) x1)) as [YM|e] eqn:E3;
      [|discriminate].
    destruct (matmul_left (ss_C w2) (last_items (tnew_len tn) P1)) as [CP|e] eqn:E4;
      [|discriminate].
    simpl in Hp.
    destruct (matmul_right CP (transpose (ss_C w2))) as [CPCt|e] eqn:E5; [|discriminate].
    simpl in Hp.
    destruct (stack_add (stack_sqrt CPCt) (ss_R w2)) as [S|e] eqn:E6; [|discriminate].
    injection Hp as <- <- <-.
    exists (last_items (tnew_len tn) x1), (last_items (tnew_len tn) P1), YM, CP, CPCt, S.
    repeat split; first [assumption | reflexivity].
  - destruct (matmul_left (ss_C w2) x) as [YM|e] eqn:E3; [|discriminate].
    destruct (matmul_left (ss_C w2) P) as [CP|e] eqn:E4; [|discriminate].
    simpl in Hp.
    destruct (matmul_right CP (transpose (ss_C w2))) as [CPCt|e] eqn:E5; [|discriminate].
    simpl in Hp.
    destruct (stack_add (stack_sqrt CPCt) (ss_R w2)) as [S|e] eqn:E6; [|discriminate].
    injection Hp as <- <- <-.
    exists x, P, YM, CP, CPCt, S.
    repeat split; first [assumption | reflexivity].
Qed.

(** C9: when [predict] returns, the deviation it returns is, entry by
    entry, [sqrt(C @ P @ C.T) + R] over the covariances kept: the
    measurement-noise entry is added to the square root, it is not under it.
    For one output, with c the row of C and r the entry of R, the values
    are [sqrt(c P_t c^T) + r]. *)
Theorem predict_std_adds_R_after_sqrt
    (df : DataFrame) (outputs inputs : option Names) (tnew : option TNew)
    (x0 P0 : option Obj) (smooth : bool) (w w' : W) (y_mean y_std : ndarray T) :
  predict df outputs inputs tnew x0 P0 smooth w = (Ok (y_mean, y_std), w') ->
  exists dt u u1 y index_back w1 x P Ps CP CPCt S,
    _prepare_data df inputs outputs tnew w = (Ok [dt; u; u1; y; index_back], w1)
    /\ _estimate_states dt u u1 y x0 P0 smooth w1 = (Ok (x, P), w')
    /\ select_new tnew index_back P = Ok Ps
    /\ matmul_left (ss_C w') Ps = Ok CP
    /\ matmul_right CP (transpose (ss_C w')) = Ok CPCt
    /\ stack_add (stack_sqrt CPCt) (ss_R w') = Ok S
    /\ y_std = squeeze (stack_array S)
    /\ (forall c r, ss_C w' = [c] -> c <> [] -> ss_R w' = [[r]] ->
         nd_data y_std
         = (fun Pt => (s_sqrt (FreqRegressor.output_variance c Pt) + r)%S) <$> st_items Ps).
Proof.
  intros Hp. apply predict_inv in Hp.
  destruct Hp as (_ & dt & u & u1 & y & ib & w1 & x & P & xs & Ps & YM & CP & CPCt & S
                  & Hprep & Hest & Hxs & HPs & HYM & HCP & HCPCt & HS & -> & ->).
  exists dt, u, u1, y, ib, w1, x, P, Ps, CP, CPCt, S.
  repeat (split; [assumption || reflexivity|]).
  intros c r HC Hc HR. rewrite HC in HCP, HCPCt. rewrite HR in HS.
  unfold matmul_left in HCP. destruct (decide _) in HCP; [|discriminate].
  injection HCP as <-.
  unfold matmul_right in HCPCt. destruct (decide _) in HCPCt; [|discriminate].
  injection HCPCt as <-. simpl in HS.
  rewrite transpose_row in HS. rewrite transpose_column in HS by exact Hc.
  unfold stack_add, stack_sqrt in HS. simpl in HS.
  replace (ncols ((fun x => [x]) <$> c)) with 1 in HS
    by (destruct c; [congruence|reflexivity]).
  simpl in HS. injection HS as <-. simpl.
  rewrite <- !list_fmap_compose.
  generalize (st_items Ps). intros items.
  induction items as [|Pt items IH]; simpl; [reflexivity|].
  f_equal. exact IH.
Qed.

(** C10: [eval_residuals] does not look at its [x0] and [P0] arguments:
    whatever the collaborators do, two calls that differ only there return
    the same residuals and deviations and leave the same object. *)
Theorem eval_residuals_ignores_x0_P0
    (df : DataFrame) (outputs inputs : option Names)
    (x0 P0 x0' P0' : option Obj) (w : W) :
  eval_residuals df outputs inputs x0 P0 w
  = eval_residuals df outputs inputs x0' P0' w.
Proof.
  unfold FreqRegressor.eval_residuals.
  destruct (_prepare_data df inputs outputs None w) as [[prepared|e] w1];
    reflexivity.
Qed.

(** C7: with more than one declared output [predict] raises
    NotImplementedError at once, the object untouched and no collaborator
    called (the result is the same whatever they are); with at most one
    output a NotImplementedError, if any, comes out of [_prepare_data] or
    [_estimate_states], never from [predict] itself. *)
Theorem predict_single_output_only
    (df : DataFrame) (outputs inputs : option Names) (tnew : option TNew)
    (x0 P0 : option Obj) (smooth : bool) (w : W) :
  (1 < ss_ny w ->
     predict df outputs inputs tnew x0 P0 smooth w = (Raise NotImplementedError, w))
  /\ (ss_ny w <= 1 ->
      (predict df outputs inputs tnew x0 P0 smooth w).1 = Raise NotImplementedError ->
      (_prepare_data df inputs outputs tnew w).1 = Raise NotImplementedError
      \/ exists dt u u1 y index_back w1,
           _prepare_data df inputs outputs tnew w = (Ok [dt; u; u1; y; index_back], w1)
           /\ (_estimate_states dt u u1 y x0 P0 smooth w1).1 = Raise NotImplementedError).
Proof.
  unfold FreqRegressor.predict, mbind, M_bind, gets, lift, raise, mret, M_ret.
  split; intros Hny.
  - destruct (decide (1 < ss_ny w)); [reflexivity|lia].
  - destruct (decide (1 < ss_ny w)); [lia|].
    destruct (_prepare_data df inputs outputs tnew w) as [[prepared|e] w1] eqn:Hp;
      simpl; [|intros [= ->]; left; reflexivity].
    destruct prepared as [|dt [|u [|u1 [|y [|index_back [|? ?]]]]]];
      try (simpl; discriminate).
    destruct (_estimate_states dt u u1 y x0 P0 smooth w1) as [[[x P]|e] w2] eqn:He;
      simpl.
    2:{ intros [= ->]. right. exists dt, u, u1, y, index_back, w1.
        split; [reflexivity|]. rewrite He. reflexivity. }
    intros Hraise. exfalso.
    destruct tnew as [tn|]; simpl in Hraise.
    + destruct (take_items (as_index index_back) x) as [x1|e] eqn:E1; simpl in Hraise;
        [|apply take_items_raises in E1; congruence].
      destruct (take_items (as_index index_back) P) as [P1|e] eqn:E2; simpl in Hraise;
        [|apply take_items_raises in E2; congruence].
      destruct (matmul_left (ss_C w2) (last_items (tnew_len tn) x1)) as [ym|e] eqn:E3;
        simpl in Hraise; [|apply matmul_left_raises in E3; congruence].
      destruct (matmul_left (ss_C w2) (last_items (tnew_len tn) P1)) as [CP|e] eqn:E4;
        simpl in Hraise; [|apply matmul_left_raises in E4; congruence].
      destruct (matmul_right CP (transpose (ss_C w2))) as [CPCt|e] eqn:E5;
        simpl in Hraise; [|apply matmul_right_raises in E5; congruence].
      destruct (stack_add (stack_sqrt CPCt) (ss_R w2)) as [ys|e] eqn:E6;
        simpl in Hraise; [discriminate|apply stack_add_raises in E6; congruence].
    + destruct (matmul_left (ss_C w2) x) as [ym|e] eqn:E3;
        simpl in Hraise; [|apply matmul_left_raises in E3; congruence].
      destruct (matmul_left (ss_C w2) P) as [CP|e] eqn:E4;
        simpl in Hraise; [|apply matmul_left_raises in E4; congruence].
      destruct (matmul_right CP (transpose (ss_C w2))) as [CPCt|e] eqn:E5;
        simpl in Hraise; [|apply matmul_right_raises in E5; congruence].
      destruct (stack_add (stack_sqrt CPCt) (ss_R w2)) as [ys|e] eqn:E6;
        simpl in Hraise; [discriminate|apply stack_add_raises in E6; congruence].
Qed.
End RegressorClaims.

(** ** The gradient [fit] gives the optimizer *)

Section FitGradient.
Import FreqRegressor.
Context {T : Type} `{Scalar T} {Obj W : Type}.
Context (_eval_log_posterior : list T -> list Obj -> M W T).

Lemma finite_difference_lookup scheme (f : list T -> T) step (x : list T) i xi :
  x !! i = Some xi ->
  finite_difference scheme f step x !! i
  = Some (match scheme with
          | TwoPoint =>
              (f (<[i := xi + step xi]> x) - f x) / ((xi + step xi) - xi)
          | ThreePoint =>
              (f (<[i := xi + step xi]> x) - f (<[i := xi - step xi]> x))
              / ((xi + step xi) - (xi - step xi))
          end)%S.
Proof.
  intros Hi. unfold finite_difference.
  rewrite list_lookup_imap, Hi. destruct scheme; reflexivity.
Qed.

Lemma finite_difference_ext (f f' : list T -> T) step (x : list T) :
  (forall i xi, x !! i = Some xi ->
     f' (<[i := xi + step xi]> x) = f (<[i := xi + step xi]> x)
     /\ f' (<[i := xi - step xi]> x) = f (<[i := xi - step xi]> x))%S ->
  finite_difference ThreePoint f' step x = finite_difference ThreePoint f step x.
Proof.
  intros Hff. apply list_eq. intros i.
  destruct (x !! i) as [xi|] eqn:Hi.
  - rewrite !(finite_difference_lookup _ _ _ _ _ _ Hi).
    destruct (Hff i xi Hi) as [-> ->]. reflexivity.
  - unfold finite_difference. rewrite !list_lookup_imap, Hi. reflexivity.
Qed.

(** C2, as the code has it: the optimizer is handed the scalar objective
    [_eval_log_posterior] with [jac='3-point'] and method BFGS, so every
    gradient it works with is SciPy's central finite-difference estimate of
    that objective; it is fixed by the objective's values at the two
    displaced points of each coordinate, and [fit] passes no gradient of
    its own and applies no chain rule to one. *)
Theorem fit_gradient_is_finite_difference
    (x0 : list T) (data : list Obj) (options : gmap string optval)
    (f : list T -> T) (step : T -> T) (eta : list T) :
  let c := fit_minimize_call _eval_log_posterior x0 data options in
  mc_fun c = _eval_log_posterior
  /\ mc_method c = "BFGS"
  /\ mc_jac c = JacScheme "3-point"
  /\ optimizer_gradient (mc_jac c) f step eta
     = Ok (finite_difference ThreePoint f step eta)
  /\ (forall i xi, eta !! i = Some xi ->
        finite_difference ThreePoint f step eta !! i
        = Some ((f (<[i := xi + step xi]> eta) - f (<[i := xi - step xi]> eta))
                / ((xi + step xi) - (xi - step xi)))%S)
  /\ (forall f' : list T -> T,
        (forall i xi, eta !! i = Some xi ->
           f' (<[i := xi + step xi]> eta) = f (<[i := xi + step xi]> eta)
           /\ f' (<[i := xi - step xi]> eta) = f (<[i := xi - step xi]> eta))%S ->
        optimizer_gradient (mc_jac c) f' step eta
        = optimizer_gradient (mc_jac c) f step eta).
Proof.
  intros c. subst c. simpl.
  split; [reflexivity|]. split; [reflexivity|]. split; [reflexivity|].
  split; [reflexivity|]. split.
  - intros i xi Hi. apply (finite_difference_lookup ThreePoint), Hi.
  - intros f' Hff. simpl. f_equal. apply finite_difference_ext, Hff.
Qed.
End FitGradient.

Section FitGradientCounterexample.
Import FreqRegressor.
Local Open Scope R_scope.

Lemma cube_gradient_ok (x : R) (i : nat) :
  (i < length [x])%nat ->
  derivable_pt_lim (fun v => cube (<[i := v]> [x]))
    (nth i [x] 0) (nth i (cube_gradient [x]) 0).
Proof.
  intros Hi. destruct i as [|i]; [|simpl in Hi; lia].
  unfold cube, cube_gradient. simpl.
  eapply dl_change; [reflexivity | reflexivity | | dl].
  cbv beta. ring.
Qed.

(** C2 as stated fails: were the gradient the optimizer gets from the call
    in [fit] the analytic one, it would be 3 for the cube at 1; the call
    gives the central difference, which with a unit step is 4. *)
Lemma fit_gradient_not_analytic :
  ~ (forall (Obj W : Type) (posterior : list R -> list Obj -> M W R)
       (x0 : list R) (data : list Obj) (options : gmap string optval)
       (f : list R -> R) (g : list R -> list R) (step : R -> R) (eta : list R),
       (forall x w, posterior x data w = (Ok (f x), w)) ->
       (forall i, (i < length eta)%nat ->
          derivable_pt_lim (fun v => f (<[i := v]> eta)) (nth i eta 0)
            (nth i (g eta) 0)) ->
       optimizer_gradient
         (mc_jac (fit_minimize_call posterior x0 data options)) f step eta
       = Ok (g eta)).
Proof.
  intros Hclaim.
  specialize (Hclaim unit unit cube_posterior [] [] ∅ cube cube_gradient
                (fun _ => 1) [1]
                (fun x w => eq_refl) (cube_gradient_ok 1)).
  unfold optimizer_gradient, finite_difference, cube, cube_gradient in Hclaim.
  simpl in Hclaim. injection Hclaim as Hclaim.
  replace (1 + 1 + - (1 + - (1))) with 2 in Hclaim by ring. lra.
Qed.
End FitGradientCounterexample.

(** * Properties of the filter *)

Section FilterClaim.
Import KalmanQR.
Context {T : Type} `{Scalar T}.
Context {Model Mean Factor Input : Type}.
Context (propagate_mean : Model -> Input -> Mean -> Mean).
Context (prior_stack : Model -> Factor -> matrix T).
Context (joint_stack : Model -> Factor -> matrix T).
Context (triangularize : matrix T -> option (matrix T)).
Context (prior_of : matrix T -> Factor).
Context (innovation_std : matrix T -> T).
Context (filtered_of : matrix T -> Factor).
Context (correct : matrix T -> Mean -> T -> Mean).
Context (predicted_output : Model -> Mean -> T).
Context (s_log : T -> T) (log_constant : T).

Local Abbreviation forward_step :=
  (forward_step propagate_mean prior_stack joint_stack triangularize prior_of
     innovation_std filtered_of correct predicted_output s_log log_constant).
Local Abbreviation forward :=
  (forward propagate_mean prior_stack joint_stack triangularize prior_of
     innovation_std filtered_of correct predicted_output s_log log_constant).
Local Abbreviation filtering :=
  (filtering propagate_mean prior_stack joint_stack triangularize prior_of
     innovation_std filtered_of correct predicted_output s_log log_constant).
Local Abbreviation fails := (factorization_fails prior_stack joint_stack triangularize prior_of).
Local Abbreviation sound := (from_factorizations triangularize prior_of innovation_std filtered_of).

Lemma forward_step_fails step out x Sq nll :
  fails step Sq ->
  forward_step step (out, (x, Sq), nll) = Raise NumericalInstabilityError.
Proof.
  destruct step as [[m u] y].
  unfold KalmanQR.forward_step, factorization_fails. simpl.
  intros [Hp | (tri & yk & Hp & -> & Hj)]; rewrite Hp; simpl; [reflexivity|].
  rewrite Hj. reflexivity.
Qed.

Lemma forward_step_raises step c e :
  forward_step step c = Raise e ->
  e = NumericalInstabilityError /\ fails step c.1.2.2.
Proof.
  destruct step as [[m u] y], c as [[out [x Sq]] nll].
  unfold KalmanQR.forward_step, factorization_fails. simpl.
  destruct (triangularize (prior_stack m Sq)) as [tri|] eqn:Hp; simpl.
  - destruct y as [yk|]; [|discriminate].
    destruct (triangularize (joint_stack m (prior_of tri))) as [J|] eqn:Hj; simpl;
      [discriminate|].
    intros [= <-]. split; [reflexivity|]. right. exists tri, yk. auto.
  - intros [= <-]. split; [reflexivity|]. left. reflexivity.
Qed.

Lemma forward_step_sound step c c' :
  forward_step step c = Ok c' ->
  Forall sound c.1.1 -> Forall sound c'.1.1 /\ length c'.1.1 = S (length c.1.1).
Proof.
  destruct step as [[m u] y], c as [[out [x Sq]] nll].
  unfold KalmanQR.forward_step. simpl.
  destruct (triangularize (prior_stack m Sq)) as [tri|] eqn:Hp; simpl; [|discriminate].
  destruct y as [yk|].
  - destruct (triangularize (joint_stack m (prior_of tri))) as [J|] eqn:Hj; simpl;
      [|discriminate].
    intros [= <-] Hout. simpl. rewrite length_app. simpl. split; [|lia].
    apply Forall_app. split; [exact Hout|]. constructor; [|constructor].
    split; simpl; eauto 6.
  - intros [= <-] Hout. simpl. rewrite length_app. simpl. split; [|lia].
    apply Forall_app. split; [exact Hout|]. constructor; [|constructor].
    split; simpl; eauto.
Qed.

Lemma forward_app pre post c :
  forward (pre ++ post) c = forward pre c ≫= forward post.
Proof.
  revert c. induction pre as [|step pre IH]; intros c; [reflexivity|].
  simpl. destruct (forward_step step c) as [c'|e]; simpl; [apply IH|reflexivity].
Qed.

Lemma forward_raises steps c e :
  forward steps c = Raise e ->
  e = NumericalInstabilityError
  /\ exists pre step post c',
       steps = pre ++ step :: post
       /\ forward pre c = Ok c' /\ fails step c'.1.2.2.
Proof.
  revert c. induction steps as [|step steps IH]; intros c; simpl; [discriminate|].
  destruct (forward_step step c) as [c1|e1] eqn:Hs; simpl.
  - intros Hr. destruct (IH _ Hr) as (-> & pre & st & post & c' & -> & Hpre & Hf).
    split; [reflexivity|]. exists (step :: pre), st, post, c'.
    split; [reflexivity|]. split; [|exact Hf]. simpl. rewrite Hs. exact Hpre.
  - intros [= <-]. destruct (forward_step_raises _ _ _ Hs) as [-> Hf].
    split; [reflexivity|]. exists [], step, steps, c. auto.
Qed.

Lemma forward_sound steps c c' :
  forward steps c = Ok c' ->
  Forall sound c.1.1 ->
  Forall sound c'.1.1 /\ length c'.1.1 = length c.1.1 + length steps.
Proof.
  revert c. induction steps as [|step steps IH]; intros c; simpl.
  - intros [= <-] Hc. split; [exact Hc|lia].
  - destruct (forward_step step c) as [c1|e1] eqn:Hs; simpl; [|discriminate].
    intros Hf Hc. destruct (forward_step_sound _ _ _ Hs Hc) as [Hc1 Hl1].
    destruct (IH _ Hf Hc1) as [Hc' Hl']. split; [exact Hc'|lia].
Qed.

End FilterClaim.

(** * Witnesses: the theorems at concrete inputs *)

Section Witnesses.
Import TwTi_RoRiAwAicv.



(** C1 at the vector of twos with unit scales: the slot of Ro in dA, entry
    [0, 0]. *)
Lemma jacobian_is_partial_derivative_witness :
  exists dM d,
    SS.jac mA (built 1 1 [2; 2; 2; 2; 2; 2; 2; 2; 2; 2; 2; 2; 2; 2]%R) !! "Ro" = Some dM
    /\ (dM !! 0 ≫= fun row => row !! 0) = Some d
    /\ derivable_pt_lim
         (fun v => entry (SS.mat mA (built 1 1
            (<[0 := v]> [2; 2; 2; 2; 2; 2; 2; 2; 2; 2; 2; 2; 2; 2]%R))) 0 0)
         (nth 0 [2; 2; 2; 2; 2; 2; 2; 2; 2; 2; 2; 2; 2; 2]%R 0%R) d.
Proof.
  assert (H2 : (2 <> 0)%R) by lra.
  exact (jacobian_is_partial_derivative 1 1 2 2 2 2 2 2 2 2 2 2 2 2 2 2 []
           H2 H2 H2 H2 mA 0 "Ro" 0 0 eq_refl
           (Nat.lt_0_succ 1) (Nat.lt_0_succ 1)).
Defined.

(** C3 on the freshly constructed model: the slot of Ro in dA. *)
Lemma derivative_maps_complete_witness :
  exists dM,
    SS.jac mA (construct 1%R 1%R) !! "Ro" = Some dM
    /\ has_shape (shape mA).1 (shape mA).2 dM = true
    /\ (independent 1 1 mA 0 -> dM = zeros (shape mA).1 (shape mA).2).
Proof.
  exact (derivative_maps_complete 1 1 (construct 1%R 1%R) mA 0 "Ro"
           (reach_construct _ _) eq_refl).
Defined.
End Witnesses.

Section PredictWitness.
Import FreqRegressor.

(** A one-step series on a two-state, one-output model in binary64: the
    collaborators hand back a fixed state and covariance. *)
Definition demo_prepare (df : unit) (inputs outputs : option unit)
    (tnew : option unit) : M unit (list unit) :=
  mret [tt; tt; tt; tt; tt].

Definition demo_estimate (dt u u1 y : unit) (x0 P0 : option unit)
    (smooth : bool) : M unit (stack float * stack float) :=
  mret (Stack 2 1 [[[5]; [7]]], Stack 2 2 [[[1; 0]; [0; 4]]])%float.

(** C9 on that series: the deviation returned is sqrt(4) + 1. *)
Lemma predict_std_adds_R_after_sqrt_witness :
  nd_data (NdArray [] [3%float])
  = [(s_sqrt (output_variance [0; 1] [[1; 0]; [0; 4]]) + 1)%S]%float.
Proof.
  destruct (predict_std_adds_R_after_sqrt (H:=float_scalar)
              (fun _ : unit => 0) (fun _ : unit => [])
              (fun _ : unit => 1) (fun _ => [[0; 1]]%float) (fun _ => [[1]]%float)
              demo_prepare demo_estimate
              tt None None None None None false tt tt
              (NdArray [] [7%float]) (NdArray [] [3%float])
              ltac:(vm_compute; reflexivity))
    as (dt & u & u1 & y & ib & w1 & x & P & Ps & CP & CPCt & S
        & _ & Hest & Hsel & _ & _ & _ & _ & Hdata).
  injection Hest as _ <- _. injection Hsel as <-.
  exact (Hdata [0; 1]%float 1%float eq_refl ltac:(discriminate) eq_refl).
Defined.
End PredictWitness.

(** * Further properties of the model *)

Section ModelExtras.
Context {T : Type} `{Scalar T}.
Import TwTi_RoRiAwAicv.

Lemma jac_set_jac_ne id id' (d : gmap string (matrix T)) s :
  id' <> id -> SS.jac id' (SS.set_jac id d s) = SS.jac id' s.
Proof. intros Hne. destruct id, id'; try reflexivity; congruence. Qed.

Lemma frames_assign_jac_ne id id' k f :
  id' <> id -> frames (SS.jac (T:=T) id') (assign_jac id k f).
Proof.
  intros Hne s. unfold exec, assign_jac.
  destruct (SS.jac id s !! k) as [m|]; [|reflexivity].
  destruct (f m); simpl; [apply jac_set_jac_ne, Hne | reflexivity].
Qed.

Lemma frames_jac_update_state_space_model id (theta : list T) :
  frames (SS.jac id) (update_state_space_model theta).
Proof.
  unfold update_state_space_model.
  repeat (destruct theta as [|? theta]; [apply frames_raise|]).
  auto 30 with frames.
Qed.

Lemma frames_jac_update_jacobian id (theta : list T) :
  id <> mA -> id <> mB -> frames (SS.jac id) (update_jacobian theta).
Proof.
  intros HA HB. unfold update_jacobian.
  repeat (destruct theta as [|? theta]; [apply frames_raise|]).
  repeat first
    [ apply frames_bind; [|intros ?]
    | apply frames_gets
    | apply frames_assign_jac_ne; assumption ].
Qed.

Lemma frames_jac_set_jacobian id :
  id = mA \/ id = mB \/ id = mC \/ id = mD ->
  frames (SS.jac (T:=T) id) set_jacobian.
Proof.
  intros Hid. unfold set_jacobian.
  repeat first
    [ apply frames_bind; [|intros ?]
    | apply frames_gets
    | apply frames_assign_jac_ne; destruct Hid as [-> | [-> | [-> | ->]]]; discriminate ].
Qed.

(** X1: which derivative maps each method can change. [set_constant] and
    [update_state_space_model] change none; [update_jacobian] changes only
    dA and dB; [set_jacobian] leaves dA, dB, dC and dD alone. This holds
    from any object, whether the method returns or raises. *)
Theorem derivative_maps_frame (s : SS.t T) (theta : list T) (id : mat_id) :
  SS.jac id (exec set_constant s) = SS.jac id s
  /\ SS.jac id (exec (update_state_space_model theta) s) = SS.jac id s
  /\ (id <> mA -> id <> mB ->
      SS.jac id (exec (update_jacobian theta) s) = SS.jac id s)
  /\ (id = mA \/ id = mB \/ id = mC \/ id = mD ->
      SS.jac id (exec set_jacobian s) = SS.jac id s).
Proof.
  split; [apply frames_assign_mat_jac|].
  split; [apply frames_jac_update_state_space_model|].
  split.
  - intros HA HB. apply frames_jac_update_jacobian; assumption.
  - intros Hid. apply frames_jac_set_jacobian, Hid.
Qed.


Lemma exec_seq_ok {S A B} (m1 : M S A) (m2 : M S B) (s : S) a :
  (m1 s).1 = Ok a -> exec (m1 ;; m2) s = exec m2 (exec m1 s).
Proof.
  unfold exec, mbind, M_bind. destruct (m1 s) as [[a'|e] s1]; simpl; [|discriminate].
  reflexivity.
Qed.

End ModelExtras.

(** * Further properties of the regressor *)

Section OptionsExtras.
Import FreqRegressor.

(** X4: the options [fit] hands to the optimizer. 'init' and 'hpd' are taken
    out, with defaults 'fixed' and 0.95 when the caller gave none; 'disp'
    and 'gtol' are the caller's when given and True and 1e-4 otherwise; every
    other key goes through as the caller set it. *)
Theorem fit_options_spec (options : option (gmap string optval)) :
  let user := default ∅ options in
  let '(init, hpd, passed) := fit_options options in
  init = default (OStr "fixed") (user !! "init")
  /\ hpd = default (OFloat 0x1.e666666666666p-1) (user !! "hpd")
  /\ passed !! "init" = None
  /\ passed !! "hpd" = None
  /\ passed !! "disp" = Some (default (OBool true) (user !! "disp"))
  /\ passed !! "gtol" = Some (default (OFloat 0x1.a36e2eb1c432dp-14) (user !! "gtol"))
  /\ (forall k, k <> "init" -> k <> "hpd" -> k <> "disp" -> k <> "gtol" ->
        passed !! k = user !! k).
Proof.
  unfold fit_options, pop, setdefault. simpl.
  set (user := default ∅ options).
  destruct (user !! "disp") as [d|] eqn:Hd;
    [destruct (user !! "gtol") as [g|] eqn:Hg
    |destruct (<["disp":=OBool true]> user !! "gtol") as [g|] eqn:Hg;
     rewrite lookup_insert_ne in Hg by discriminate];
    simpl; repeat split; intros;
    repeat first
      [ rewrite lookup_delete_eq
      | rewrite lookup_insert_eq
      | rewrite lookup_delete_ne by congruence
      | rewrite lookup_insert_ne by congruence ];
    rewrite ?Hd, ?Hg; reflexivity.
Qed.
End OptionsExtras.

Section RegressorExtras.
Context {T : Type} `{Scalar T}.
Context {DataFrame Names TNew Obj W : Type}.
Context (tnew_len : TNew -> nat) (as_index : Obj -> list nat).
Context (ss_ny : W -> nat) (ss_C ss_R : W -> matrix T).
Context (_prepare_data :
           DataFrame -> option Names -> option Names -> option TNew -> M W (list Obj)).
Context (_estimate_states :
           Obj -> Obj -> Obj -> Obj -> option Obj -> option Obj -> bool ->
           M W (stack T * stack T)).
Context (_eval_log_likelihood : Obj -> Obj -> Obj -> Obj -> M W Obj).
Context (get_discrete_ssm : Obj -> M W (list Obj)).
Context (filtering : Obj -> Obj -> Obj -> Obj -> Obj -> M W (list (ndarray T))).

Local Abbreviation predict :=
  (FreqRegressor.predict tnew_len as_index ss_ny ss_C ss_R _prepare_data _estimate_states).
Local Abbreviation select_new :=
  (FreqRegressor.select_new tnew_len as_index).
Local Abbreviation eval_residuals :=
  (FreqRegressor.eval_residuals (DataFrame:=DataFrame) (Names:=Names)
     _prepare_data get_discrete_ssm filtering).
Local Abbreviation eval_log_likelihood :=
  (FreqRegressor.eval_log_likelihood (DataFrame:=DataFrame) (Names:=Names)
     _prepare_data _eval_log_likelihood).
Local Abbreviation estimate_states :=
  (FreqRegressor.estimate_states (DataFrame:=DataFrame) (Names:=Names)
     _prepare_data _estimate_states).

(** X5: [predict] unpacks exactly five components of what [_prepare_data]
    returns and [eval_log_likelihood] exactly four, both asking without new
    time instants. So from one and the same object and data, if [predict]
    without [tnew] returns, [eval_log_likelihood] raises ValueError as soon
    as the data is prepared, its likelihood never evaluated. *)
Theorem predict_excludes_eval_log_likelihood
    (df : DataFrame) (outputs inputs : option Names)
    (x0 P0 : option Obj) (smooth : bool) (w w' : W) (r : ndarray T * ndarray T) :
  predict df outputs inputs None x0 P0 smooth w = (Ok r, w') ->
  exists w1,
    (_prepare_data df inputs outputs None w).2 = w1
    /\ eval_log_likelihood df outputs inputs w = (Raise ValueError, w1).
Proof.
  destruct r as [y_mean y_std]. intros Hp. apply predict_inv in Hp.
  destruct Hp as (_ & dt & u & u1 & y & ib & w1 & x & P & xs & Ps & YM & CP & CPCt & S
                  & Hprep & _).
  exists w1. rewrite Hprep. split; [reflexivity|].
  unfold FreqRegressor.eval_log_likelihood, mbind, M_bind. rewrite Hprep. reflexivity.
Qed.

(** X6: [eval_residuals] returns only when [_prepare_data] gave at least
    four components, [get_discrete_ssm] exactly two and [filtering] exactly
    four; what it returns are the third and fourth of these, squeezed. *)
Theorem eval_residuals_returns
    (df : DataFrame) (outputs inputs : option Names) (x0 P0 : option Obj)
    (w w' : W) (res res_std : ndarray T) :
  eval_residuals df outputs inputs x0 P0 w = (Ok (res, res_std), w') ->
  exists dt u u1 y rest w1 ssm index w2 f0 f1 f2 f3,
    _prepare_data df inputs outputs None w = (Ok (dt :: u :: u1 :: y :: rest), w1)
    /\ get_discrete_ssm dt w1 = (Ok [ssm; index], w2)
    /\ filtering ssm index u u1 y w2 = (Ok [f0; f1; f2; f3], w')
    /\ res = squeeze f2 /\ res_std = squeeze f3.
Proof.
  unfold FreqRegressor.eval_residuals, mbind, M_bind, raise, mret, M_ret.
  destruct (_prepare_data df inputs outputs None w) as [[prepared|e] w1] eqn:Hprep;
    [|discriminate].
  destruct prepared as [|dt [|u [|u1 [|y rest]]]]; try discriminate.
  destruct (get_discrete_ssm dt w1) as [[discrete|e] w2] eqn:Hd; [|discriminate].
  destruct discrete as [|ssm [|index [|? ?]]]; try discriminate.
  destruct (filtering ssm index u u1 y w2) as [[filtered|e] w3] eqn:Hf; [|discriminate].
  destruct filtered as [|f0 [|f1 [|f2 [|f3 [|? ?]]]]]; try discriminate.
  simpl. intros [= <- <- <-].
  exists dt, u, u1, y, rest, w1, ssm, index, w2, f0, f1, f2, f3.
  repeat split; first [assumption | reflexivity].
Qed.

(** X7: a tuple too short stops [eval_residuals] and [estimate_states] with
    ValueError right after the data preparation: no discretization, no
    filtering, no state estimation, whatever these collaborators are. *)
Theorem short_prepared_tuple
    (df : DataFrame) (outputs inputs : option Names) (x0 P0 : option Obj)
    (smooth : bool) (w w1 : W) (prepared : list Obj) :
  _prepare_data df inputs outputs None w = (Ok prepared, w1) ->
  length prepared < 4 ->
  eval_residuals df outputs inputs x0 P0 w = (Raise ValueError, w1)
  /\ estimate_states df outputs inputs x0 P0 smooth w = (Raise ValueError, w1).
Proof.
  intros Hprep Hl.
  unfold FreqRegressor.eval_residuals, FreqRegressor.estimate_states, mbind, M_bind.
  rewrite Hprep.
  destruct prepared as [|dt [|u [|u1 [|y rest]]]]; try (split; reflexivity).
  simpl in Hl. lia.
Qed.

Lemma select_new_length tn index_back (s s' : stack T) :
  select_new (Some tn) index_back s = Ok s' ->
  length (st_items s')
  = if decide (tnew_len tn = 0) then length (as_index index_back)
    else tnew_len tn `min` length (as_index index_back).
Proof.
  unfold FreqRegressor.select_new, take_items.
  destruct (mapM _ (as_index index_back)) as [items|e] eqn:Hm; simpl; [|discriminate].
  intros [= <-]. simpl.
  assert (Hlen : length items = length (as_index index_back)).
  { clear -Hm. revert items Hm.
    induction (as_index index_back) as [|i idx IH]; intros items; simpl.
    - intros [= <-]. reflexivity.
    - destruct (of_option IndexError (st_items s !! i)); simpl; [|discriminate].
      destruct (mapM _ idx) as [l|]; simpl; [|discriminate].
      intros [= <-]. simpl. f_equal. apply IH. reflexivity. }
  destruct (decide (tnew_len tn = 0)); [exact Hlen|].
  rewrite length_drop. lia.
Qed.

Lemma single_output_rows (c : list T) (s CP : stack T) :
  matmul_left [c] s = Ok CP ->
  st_items CP = (fun it => [dot c <$> transpose it]) <$> st_items s.
Proof.
  unfold matmul_left. destruct (decide _); [|discriminate].
  intros [= <-]. reflexivity.
Qed.

(** X8: how many values [predict] returns when new time instants are given,
    for one output: as many as [tnew] has, or as many as [index_back]
    selects if these are fewer; and for an empty [tnew] it is all that
    [index_back] selects, not none, because the slice [-0:] is the whole
    array. *)
Theorem predict_length_with_tnew
    (df : DataFrame) (outputs inputs : option Names) (tn : TNew)
    (x0 P0 : option Obj) (smooth : bool) (w w' : W) (y_mean y_std : ndarray T)
    (c : list T) (r : T) :
  predict df outputs inputs (Some tn) x0 P0 smooth w = (Ok (y_mean, y_std), w') ->
  ss_C w' = [c] -> c <> [] -> ss_R w' = [[r]] ->
  exists dt u u1 y index_back w1,
    _prepare_data df inputs outputs (Some tn) w = (Ok [dt; u; u1; y; index_back], w1)
    /\ length (nd_data y_std)
       = if decide (tnew_len tn = 0) then length (as_index index_back)
         else tnew_len tn `min` length (as_index index_back).
Proof.
  intros Hp HC Hc HR. apply predict_inv in Hp.
  destruct Hp as (_ & dt & u & u1 & y & ib & w1 & x & P & xs & Ps & YM & CP & CPCt & S
                  & Hprep & Hest & Hxs & HPs & HYM & HCP & HCPCt & HS & -> & ->).
  exists dt, u, u1, y, ib, w1. split; [exact Hprep|].
  rewrite <- (select_new_length _ _ _ _ HPs).
  rewrite HC in HCP, HCPCt. rewrite HR in HS.
  unfold matmul_left in HCP. destruct (decide _) in HCP; [|discriminate].
  injection HCP as <-.
  unfold matmul_right in HCPCt. destruct (decide _) in HCPCt; [|discriminate].
  injection HCPCt as <-. simpl in HS.
  rewrite transpose_row in HS. rewrite transpose_column in HS by exact Hc.
  unfold stack_add, stack_sqrt in HS. simpl in HS.
  replace (ncols ((fun x => [x]) <$> c)) with 1 in HS
    by (destruct c; [congruence|reflexivity]).
  simpl in HS. injection HS as <-. simpl.
  rewrite <- !list_fmap_compose.
  generalize (st_items Ps). intros items.
  induction items as [|Pt items IH]; simpl; [reflexivity|].
  f_equal. exact IH.
Qed.

(** X9: the mean [predict] returns, for one output with row c of C: the
    product of c with every state kept, one value per column of the state,
    in time order. *)
Theorem predict_mean_single_output
    (df : DataFrame) (outputs inputs : option Names) (tnew : option TNew)
    (x0 P0 : option Obj) (smooth : bool) (w w' : W) (y_mean y_std : ndarray T)
    (c : list T) :
  predict df outputs inputs tnew x0 P0 smooth w = (Ok (y_mean, y_std), w') ->
  ss_C w' = [c] ->
  exists dt u u1 y index_back w1 x P xs,
    _prepare_data df inputs outputs tnew w = (Ok [dt; u; u1; y; index_back], w1)
    /\ _estimate_states dt u u1 y x0 P0 smooth w1 = (Ok (x, P), w')
    /\ select_new tnew index_back x = Ok xs
    /\ nd_data y_mean = concat ((fun xt => dot c <$> transpose xt) <$> st_items xs).
Proof.
  intros Hp HC. apply predict_inv in Hp.
  destruct Hp as (_ & dt & u & u1 & y & ib & w1 & x & P & xs & Ps & YM & CP & CPCt & S
                  & Hprep & Hest & Hxs & HPs & HYM & HCP & HCPCt & HS & -> & ->).
  exists dt, u, u1, y, ib, w1, x, P, xs.
  repeat (split; [assumption|]).
  rewrite HC in HYM. apply single_output_rows in HYM. simpl. rewrite HYM.
  generalize (st_items xs). intros items.
  induction items as [|xt items IH]; simpl; [reflexivity|].
  f_equal. exact IH.
Qed.
End RegressorExtras.

Section FitExtras.
Import FreqRegressor.
Context {T : Type} `{Scalar T}.
Context {DataFrame Names Obj W : Type}.
Context (init_parameters : nat -> optval -> optval -> M W (list T)).
Context (set_eta : list T -> M W unit).
Context (eta_free eta_jacobian scale theta_free d_penalty : W -> list T).
Context (names_free : W -> list string).
Context (ss_prepare_data :
           DataFrame -> option Names -> option Names -> M W (list Obj)).
Context (_eval_log_posterior : list T -> list Obj -> M W T).
Context (minimize : minimize_call (T:=T) (Obj:=Obj) (W:=W) -> M W (optimize_result (T:=T))).
Context (ttest : list T -> list T -> nat -> outcome (list T)).
Context (obj_shape : Obj -> list nat).
Context (pd_set_option : string -> M W unit).
Context (set_summary_ set_corr_ : frame (T:=T) -> W -> W).
Context (set_results_ : optimize_result (T:=T) -> W -> W).

Local Abbreviation fit :=
  (fit init_parameters set_eta eta_free eta_jacobian scale theta_free d_penalty
     names_free ss_prepare_data _eval_log_posterior minimize ttest obj_shape
     pd_set_option set_summary_ set_corr_ set_results_).

Lemma make_frame_ok (data : matrix T) columns index fr :
  make_frame data columns index = Ok fr ->
  fr = Frame data columns index
  /\ length data = length index
  /\ Forall (fun row => length row = length columns) data.
Proof.
  unfold make_frame.
  destruct (bool_decide (length data = length index)) eqn:Hl; simpl; [|discriminate].
  destruct (forallb _ data) eqn:Hc; [|discriminate].
  intros [= <-]. split; [reflexivity|]. split.
  - apply bool_decide_eq_true in Hl. exact Hl.
  - rewrite forallb_forall in Hc. apply Forall_forall. intros row Hrow.
    apply list_elem_of_In in Hrow. apply Hc in Hrow.
    apply bool_decide_eq_true in Hrow. exact Hrow.
Qed.

(** X10: what a returning [fit] did and what it returns. The optimizer ran
    once: on the objective, from the free eta as read after the initial
    parameters were set and the data prepared, with the prepared data as the
    extra arguments and the completed options. The result of the optimizer
    is returned as it came. The summary has one row per free parameter name
    and five columns, the correlation table is indexed by the free names
    both ways, and the object ends with the three stored in [summary_],
    [corr_] and [results_]. *)
Theorem fit_returns
    (df : DataFrame) (outputs inputs : option Names)
    (options : option (gmap string optval))
    (w w' : W) (summary corr : frame (T:=T)) (results : optimize_result (T:=T)) :
  fit df outputs inputs options w = (Ok (summary, corr, results), w') ->
  exists eta w1 w2 data w3 w4 w5,
    init_parameters 1 (fit_options options).1.1 (fit_options options).1.2 w
    = (Ok eta, w1)
    /\ set_eta eta w1 = (Ok tt, w2)
    /\ ss_prepare_data df inputs outputs w2 = (Ok data, w3)
    /\ minimize (fit_minimize_call _eval_log_posterior (eta_free w3) data
                   (fit_options options).2) w3
       = (Ok results, w4)
    /\ pd_set_option "display.float_format" w4 = (Ok tt, w5)
    /\ w' = set_results_ results (set_corr_ corr (set_summary_ summary w5))
    /\ fr_index summary = names_free w5
    /\ fr_columns summary = ["θ"; "σ(θ)"; "pvalue"; "|g(η)|"; "|dpen(θ)|"]
    /\ length (fr_data summary) = length (names_free w5)
    /\ Forall (fun row => length row = 5) (fr_data summary)
    /\ fr_index corr = names_free w5
    /\ fr_columns corr = names_free w5
    /\ length (fr_data corr) = length (names_free w5)
    /\ Forall (fun row => length row = length (names_free w5)) (fr_data corr).
Proof.
  unfold FreqRegressor.fit.
  destruct (fit_options options) as [[init hpd] passed]. simpl.
  unfold mbind, M_bind, gets, lift, modify, mret, M_ret.
  destruct (init_parameters 1 init hpd w) as [[eta|e] w1] eqn:Hinit; [|discriminate].
  destruct (set_eta eta w1) as [[[]|e] w2] eqn:Hset; [|discriminate].
  destruct (ss_prepare_data df inputs outputs w2) as [[data|e] w3] eqn:Hprep;
    [|discriminate].
  destruct (minimize _ w3) as [[res|e] w4] eqn:Hmin; [|discriminate].
  destruct (matmul _ (hess_inv res)) as [m1|e]; [|discriminate].
  destruct (matmul m1 _) as [cov|e]; [|discriminate].
  destruct (vec_mul _ (scale w4)) as [sig|e]; [|discriminate].
  destruct (matmul _ cov) as [m2|e]; [|discriminate].
  destruct (matmul m2 _) as [corr_matrix|e]; [|discriminate].
  destruct (pd_set_option "display.float_format" w4) as [[[]|e] w5] eqn:Hpd;
    [|discriminate].
  destruct (of_option IndexError (data !! 2)) as [d2|e]; [|discriminate].
  destruct (of_option IndexError (obj_shape d2 !! 1)) as [n|e]; [|discriminate].
  destruct (ttest (theta_free w5) sig n) as [pvalue|e]; [|discriminate].
  match goal with
  | |- context [if ?b then _ else _] => destruct b; [|discriminate]
  end.
  destruct (make_frame (transpose _) _ (names_free w5)) as [fr1|e] eqn:Hf1;
    [|discriminate].
  destruct (make_frame corr_matrix _ (names_free w5)) as [fr2|e] eqn:Hf2;
    [|discriminate].
  intros [= <- <- <- <-].
  apply make_frame_ok in Hf1. destruct Hf1 as (-> & Hl1 & Hc1).
  apply make_frame_ok in Hf2. destruct Hf2 as (-> & Hl2 & Hc2).
  exists eta, w1, w2, data, w3, w4, w5. simpl.
  repeat (split; [first [assumption | reflexivity]|]). exact Hc2.
Qed.
End FitExtras.

(** * Witnesses of the further properties *)

Section ExtraWitnesses.
Import TwTi_RoRiAwAicv FreqRegressor.


Definition demo_likelihood (dt u u1 y : unit) : M unit unit := mret tt.

Definition demo_discrete (dt : unit) : M unit (list unit) := mret [tt; tt].

Definition demo_filtering (ssm index u u1 y : unit)
  : M unit (list (ndarray float)) :=
  mret [NdArray [2; 1] [1%float; 2%float]; NdArray [2; 1; 1] [3%float; 4%float];
        NdArray [2; 1; 1] [5%float; 6%float]; NdArray [2; 1; 1] [7%float; 8%float]].

Definition demo_short (df : unit) (inputs outputs : option unit)
    (tnew : option unit) : M unit (list unit) :=
  mret [tt; tt; tt].

Definition demo_estimate3 (dt u u1 y : unit) (x0 P0 : option unit)
    (smooth : bool) : M unit (stack float * stack float) :=
  mret (Stack 2 1 [[[1]; [2]]; [[3]; [4]]; [[5]; [6]]],
        Stack 2 2 [[[1; 0]; [0; 1]]; [[1; 0]; [0; 4]]; [[1; 0]; [0; 9]]])%float.

(** X5 on the one-step series of the witness of C9. *)
Lemma predict_excludes_eval_log_likelihood_witness :
  exists w1,
    (demo_prepare tt None None None tt).2 = w1
    /\ eval_log_likelihood demo_prepare demo_likelihood tt None None tt
       = (Raise ValueError, w1).
Proof.
  exact (predict_excludes_eval_log_likelihood (H:=float_scalar)
           (fun _ : unit => 0) (fun _ : unit => [])
           (fun _ : unit => 1) (fun _ => [[0; 1]]%float) (fun _ => [[1]]%float)
           demo_prepare demo_estimate demo_likelihood
           tt None None None None false tt tt
           (NdArray [] [7%float], NdArray [] [3%float])
           ltac:(vm_compute; reflexivity)).
Defined.

(** X6 with a filter that returns four arrays. *)
Lemma eval_residuals_returns_witness :
  exists dt u u1 y rest w1 ssm index w2 f0 f1 f2 f3,
    demo_prepare tt None None None tt = (Ok (dt :: u :: u1 :: y :: rest), w1)
    /\ demo_discrete dt w1 = (Ok [ssm; index], w2)
    /\ demo_filtering ssm index u u1 y w2 = (Ok [f0; f1; f2; f3], tt)
    /\ NdArray [2] [5%float; 6%float] = squeeze f2
    /\ NdArray [2] [7%float; 8%float] = squeeze f3.
Proof.
  exact (eval_residuals_returns demo_prepare demo_discrete demo_filtering
           tt None None None None tt tt
           (NdArray [2] [5%float; 6%float]) (NdArray [2] [7%float; 8%float])
           ltac:(vm_compute; reflexivity)).
Defined.

(** X7 with a data preparation that returns three components. *)
Lemma short_prepared_tuple_witness :
  eval_residuals demo_short demo_discrete demo_filtering tt None None None None tt
  = (Raise ValueError, tt)
  /\ estimate_states demo_short demo_estimate tt None None None None false tt
     = (Raise ValueError, tt).
Proof.
  exact (short_prepared_tuple demo_short demo_estimate demo_discrete demo_filtering
           tt None None None None false tt tt [tt; tt; tt]
           eq_refl ltac:(vm_compute; lia)).
Defined.

(** X8 with an empty [tnew] over three estimated steps, all three selected
    by [index_back]: three values come back. *)
Lemma predict_length_with_tnew_witness :
  exists dt u u1 y index_back w1,
    demo_prepare tt None None (Some tt) tt = (Ok [dt; u; u1; y; index_back], w1)
    /\ length (nd_data (NdArray [3] [2%float; 3%float; 4%float]))
       = if decide ((fun _ : unit => 0) tt = 0)
         then length ((fun _ : unit => [0; 1; 2]) index_back)
         else (fun _ : unit => 0) tt `min` length ((fun _ : unit => [0; 1; 2]) index_back).
Proof.
  exact (predict_length_with_tnew (H:=float_scalar)
           (fun _ : unit => 0) (fun _ : unit => [0; 1; 2])
           (fun _ : unit => 1) (fun _ => [[0; 1]]%float) (fun _ => [[1]]%float)
           demo_prepare demo_estimate3
           tt None None tt None None false tt tt
           (NdArray [3] [2%float; 4%float; 6%float]) (NdArray [3] [2%float; 3%float; 4%float])
           [0; 1]%float 1%float
           ltac:(vm_compute; reflexivity) eq_refl ltac:(discriminate) eq_refl).
Defined.

(** X9 on the same three steps, without [tnew]. *)
Lemma predict_mean_single_output_witness :
  exists dt u u1 y index_back w1 x P xs,
    demo_prepare tt None None None tt = (Ok [dt; u; u1; y; index_back], w1)
    /\ demo_estimate3 dt u u1 y None None false w1 = (Ok (x, P), tt)
    /\ select_new (fun _ : unit => 0) (fun _ : unit => [0; 1; 2]) None index_back x
       = Ok xs
    /\ nd_data (NdArray [3] [2%float; 4%float; 6%float])
       = concat ((fun xt => dot [0; 1]%float <$> transpose xt) <$> st_items xs).
Proof.
  exact (predict_mean_single_output (H:=float_scalar)
           (fun _ : unit => 0) (fun _ : unit => [0; 1; 2])
           (fun _ : unit => 1) (fun _ => [[0; 1]]%float) (fun _ => [[1]]%float)
           demo_prepare demo_estimate3
           tt None None None None None false tt tt
           (NdArray [3] [2%float; 4%float; 6%float]) (NdArray [3] [2%float; 3%float; 4%float])
           [0; 1]%float
           ltac:(vm_compute; reflexivity) eq_refl).
Defined.

Definition demo_init_parameters (n : nat) (init hpd : optval) : M unit (list float) :=
  mret [1%float].

Definition demo_set_eta (eta : list float) : M unit unit := mret tt.

Definition demo_ss_prepare_data (df : unit) (inputs outputs : option unit)
  : M unit (list unit) := mret [tt; tt; tt].

Definition demo_posterior (eta : list float) (data : list unit) : M unit float :=
  mret 0%float.

Definition demo_minimize (c : minimize_call (T:=float) (Obj:=unit) (W:=unit))
  : M unit (optimize_result (T:=float)) :=
  mret (OptimizeResult [[4%float]] [0.5%float]).

Definition demo_ttest (theta sig : list float) (n : nat) : outcome (list float) :=
  Ok [0.25%float].

Definition demo_pd_set_option (name : string) : M unit unit := mret tt.

(** X10 on a model with one free parameter, in binary64. *)
Lemma fit_returns_witness :
  length (fr_data (Frame [[3; 1; 0.25; 0.5; 0]]%float
                     ["θ"; "σ(θ)"; "pvalue"; "|g(η)|"; "|dpen(θ)|"] ["Ro"]))
  = length ["Ro"].
Proof.
  destruct (fit_returns (H:=float_scalar) demo_init_parameters demo_set_eta
              (fun _ => [1%float]) (fun _ => [2%float]) (fun _ => [1%float])
              (fun _ => [3%float]) (fun _ => [0%float]) (fun _ => ["Ro"])
              demo_ss_prepare_data demo_posterior demo_minimize demo_ttest
              (fun _ => [1; 10]) demo_pd_set_option (fun _ w => w) (fun _ w => w)
              (fun _ w => w) tt None None None tt tt
              (Frame [[3; 1; 0.25; 0.5; 0]]%float
                 ["θ"; "σ(θ)"; "pvalue"; "|g(η)|"; "|dpen(θ)|"] ["Ro"])
              (Frame [[1%float]] ["Ro"] ["Ro"])
              (OptimizeResult [[4%float]] [0.5%float])
              ltac:(vm_compute; reflexivity))
    as (eta & w1 & w2 & data & w3 & w4 & w5 & _ & _ & _ & _ & _ & _ & _ & _ & Hlen & _).
  exact Hlen.
Defined.
End ExtraWitnesses.

